(** * VDXConvert: the file-processing pipeline of [vdxconvert.py]

    A shallow embedding of the batch converter's pipeline core:
    discovery, the conversion dispatcher with its two backend families,
    collision-free naming, archival and the per-file result record.

    Conventions of the embedding.
    - Paths and messages are [string]s (byte strings).  [os.path] is
      [posixpath]: the host is a POSIX system, so [platform.system()] is not
      ["Windows"] and the Windows-only branches of the script are not taken.
    - The filesystem is a finite map from paths to nodes.  Everything the
      script does not own (spawned processes, the [vsdx] parser, operating
      system failures of file operations, the clock) is an oracle collected
      in the record [env]; the script's code is a computation in a small
      state-and-exception monad over the [world].
    - [time.time()] is a float in Python; the model reads it as an exact
      integer number of ticks. *)

From Stdlib Require Import Ascii.
From stdpp Require Import base option list gmap fin_maps strings pretty.

(** ** Python string helpers *)

Module Str.

(** [s.startswith(p)] *)
Fixpoint startswith (p s : string) : bool :=
  match p, s with
  | "", _ => true
  | String a p', String b s' => if decide (a = b) then startswith p' s' else false
  | String _ _, "" => false
  end.

(** [p in s] for strings *)
Fixpoint contains (p s : string) : bool :=
  startswith p s ||
  match s with
  | "" => false
  | String _ s' => contains p s'
  end.

(** [c in s] for a single character *)
Fixpoint has_char (c : ascii) (s : string) : bool :=
  match s with
  | "" => false
  | String a s' => if decide (a = c) then true else has_char c s'
  end.

(** Splitting around the last occurrence of [c] ([s.rfind(c)]):
    [Some (s[:i], s[i+1:])] when [i = s.rfind(c)] is not [-1]. *)
Fixpoint rsplit1 (c : ascii) (s : string) : option (string * string) :=
  match s with
  | "" => None
  | String a s' =>
      match rsplit1 c s' with
      | Some (h, t) => Some (String a h, t)
      | None => if decide (a = c) then Some ("", s') else None
      end
  end.

(** [s.rstrip(c)] *)
Fixpoint rstrip (c : ascii) (s : string) : string :=
  match s with
  | "" => ""
  | String a s' =>
      match rstrip c s' with
      | "" => if decide (a = c) then "" else String a ""
      | r => String a r
      end
  end.

(** [c.isspace()] for an ASCII character *)
Definition is_space (a : ascii) : bool :=
  let n := nat_of_ascii a in
  ((9 <=? n)%nat && (n <=? 13)%nat) || ((28 <=? n)%nat && (n <=? 32)%nat).

Fixpoint lstrip_space (s : string) : string :=
  match s with
  | "" => ""
  | String a s' => if is_space a then lstrip_space s' else s
  end.

Fixpoint rstrip_space (s : string) : string :=
  match s with
  | "" => ""
  | String a s' =>
      match rstrip_space s' with
      | "" => if is_space a then "" else String a ""
      | r => String a r
      end
  end.

(** [s.strip()] *)
Definition strip (s : string) : string := rstrip_space (lstrip_space s).

(** [s.endswith(c)] for a single character *)
Fixpoint endswith_char (c : ascii) (s : string) : bool :=
  match s with
  | "" => false
  | String a "" => bool_decide (a = c)
  | String _ s' => endswith_char c s'
  end.

(** [s == c * len(s)] *)
Fixpoint all_char (c : ascii) (s : string) : bool :=
  match s with
  | "" => true
  | String a s' => if decide (a = c) then all_char c s' else false
  end.

Definition lower_char (a : ascii) : ascii :=
  let n := nat_of_ascii a in
  if (65 <=? n)%nat && (n <=? 90)%nat then ascii_of_nat (n + 32) else a.

(** [s.lower()], on the ASCII letters.  The extensions the script compares
    against are made of ASCII letters none of which is the lower-case form
    of a non-ASCII character, so the comparison is not affected. *)
Fixpoint lower (s : string) : string :=
  match s with
  | "" => ""
  | String a s' => String (lower_char a) (lower s')
  end.

End Str.

(** ** [os.path] (posixpath) *)

Module Path.

(** [os.path.join(a, b)] *)
Definition join (a b : string) : string :=
  if Str.startswith "/" b then b
  else if decide (a = "") then b
  else if Str.endswith_char "/" a then a +:+ b
  else a +:+ "/" +:+ b.

(** [os.path.split(p)] *)
Definition split (p : string) : string * string :=
  match Str.rsplit1 "/" p with
  | None => ("", p)
  | Some (h, t) =>
      let head := h +:+ "/" in
      (if Str.all_char "/" head then head else Str.rstrip "/" head, t)
  end.

(** [os.path.basename(p)] *)
Definition basename (p : string) : string :=
  match Str.rsplit1 "/" p with
  | None => p
  | Some (_, t) => t
  end.

(** [os.path.splitext(p)]: the extension starts at the last dot of the last
    component, unless only dots precede it in that component. *)
Definition splitext (p : string) : string * string :=
  let '(dir, file) :=
    match Str.rsplit1 "/" p with
    | None => ("", p)
    | Some (h, t) => (h +:+ "/", t)
    end in
  match Str.rsplit1 "." file with
  | None => (p, "")
  | Some (stem, e) =>
      if Str.all_char "." stem then (p, "")
      else (dir +:+ stem, "." +:+ e)
  end.

End Path.

(** ** Exceptions *)

(** The exception classes the script distinguishes.  All of them are
    subclasses of [Exception]; [CalledProcessError] is a
    [subprocess.SubprocessError], [FileNotFoundError] is an [OSError]. *)
Inductive exn_class :=
  | ImportError
  | SubprocessError
  | FileNotFoundError
  | OSError
  | OtherException.

Global Instance exn_class_eq_dec : EqDecision exn_class.
Proof. solve_decision. Defined.

(** An exception value; [exn_msg e] is [str(e)]. *)
Record exn := Exn { exn_cls : exn_class; exn_msg : string }.

(** [except (subprocess.SubprocessError, FileNotFoundError)] *)
Definition is_subprocess_or_not_found (e : exn) : bool :=
  match exn_cls e with
  | SubprocessError | FileNotFoundError => true
  | _ => false
  end.

(** What the operating system can answer to a file operation or to the
    launch of a process. *)
Inductive oserror :=
  | ENOENT (msg : string)      (* FileNotFoundError *)
  | EOTHER (msg : string).     (* any other OSError: permissions, disk full, ... *)

Definition exn_of_oserror (o : oserror) : exn :=
  match o with
  | ENOENT m => Exn FileNotFoundError m
  | EOTHER m => Exn OSError m
  end.

(** ** Documents *)

(** An [xml.etree.ElementTree] element: tag, attributes in insertion order,
    text, children. *)
#[warnings="-register-all"]
Inductive element :=
  | Element (tag : string) (attrib : list (string * string))
            (text : option string) (children : list element).

Definition tag_of (e : element) : string := let 'Element t _ _ _ := e in t.
Definition attrib_of (e : element) : list (string * string) := let 'Element _ a _ _ := e in a.
Definition text_of (e : element) : option string := let 'Element _ _ t _ := e in t.
Definition children_of (e : element) : list element := let 'Element _ _ _ c := e in c.

(** [elem.get(key)] *)
Fixpoint attrib_get (key : string) (a : list (string * string)) : option string :=
  match a with
  | [] => None
  | (k, v) :: a' => if decide (k = key) then Some v else attrib_get key a'
  end.

(** [elem.findall(tag)]: the direct children with that tag. *)
Definition findall (t : string) (e : element) : list element :=
  filter (λ c, tag_of c = t) (children_of e).

(** [elem.find(tag)] *)
Definition find (t : string) (e : element) : option element := head (findall t e).

(** The document handle of the [vsdx] library, as far as the script reads it.
    Numeric attributes are kept as the text [str()] yields for them; an
    attribute the shape does not expose ([hasattr] false) is [None]. *)
Record shape := Shape {
  shape_name : option string;
  shape_x : option string;
  shape_y : option string;
  shape_width : option string;
  shape_height : option string
}.

Record page := Page {
  page_name : string;
  page_width : string;
  page_height : string;
  page_shapes : list shape
}.

Record drawing := Drawing { pages : list page }.

(** ** The world *)

Inductive content :=
  | XmlDoc (root : element)   (* written by [ElementTree.write] *)
  | Raw (data : string).      (* anything else *)

Inductive node :=
  | Dir
  | File (c : content).

Abbreviation filesystem := (gmap string node).

Inductive level := DEBUG | INFO | WARNING | ERROR.

Global Instance level_eq_dec : EqDecision level.
Proof. solve_decision. Defined.

(** Calls into the external collaborators, recorded in order. *)
Inductive event :=
  | Spawn (argv : list string) (before : filesystem)   (* [subprocess.run] *)
  | OpenVisio (path : string).                          (* [vsdx.VisioFile] *)

Record world := World {
  fs : filesystem;
  log : list (level * string);
  trace : list event;
  clock : nat                      (* number of [time.time()] readings so far *)
}.

Inductive fs_op :=
  | Makedirs (p : string)
  | Copy2 (src dst : string)
  | Remove (p : string)
  | Rmtree (p : string)
  | Move (src dst : string)
  | TreeWrite (p : string).

(** A finished process. *)
Record completed := Completed { returncode : Z; stdout : string }.

(** Everything outside the script. *)
Record env := Env {
  VSDX_SUPPORT : bool;              (* did [import vsdx] succeed *)
  SCRIPT_DIR : string;
  time_time : nat → Z;
  format_2f : Z → string;           (* ["{:.2f}"] *)
  format_exc : exn → string;        (* [traceback.format_exc()] *)
  spawn : list string → filesystem → (oserror + completed) * filesystem;
  VisioFile : string → filesystem → exn + drawing;
  os_fault : fs_op → filesystem → option oserror;
  os_listdir : string → filesystem → oserror + list string
}.

(** ** The monad: state and exceptions *)

Definition M (A : Type) : Type := world → world * (exn + A).

Definition ret {A} (a : A) : M A := λ w, (w, inr a).
Definition raise {A} (e : exn) : M A := λ w, (w, inl e).
Definition bind {A B} (m : M A) (k : A → M B) : M B :=
  λ w, match m w with
       | (w', inr a) => k a w'
       | (w', inl e) => (w', inl e)
       end.

(** [try: m except Exception as e: h e] *)
Definition try_except {A} (m : M A) (h : exn → M A) : M A :=
  λ w, match m w with
       | (w', inr a) => (w', inr a)
       | (w', inl e) => h e w'
       end.

(** [try: m finally: c], for a [c] that neither returns nor raises a value of
    its own when it completes: the outcome of [m] is kept, unless [c] raises. *)
Definition try_finally {A} (m : M A) (c : M unit) : M A :=
  λ w, match m w with
       | (w', r) =>
           match c w' with
           | (w'', inr _) => (w'', r)
           | (w'', inl e) => (w'', inl e)
           end
       end.

Declare Scope py_scope.
Delimit Scope py_scope with py.
Notation "x <- m ;; k" := (bind m (λ x, k))
  (at level 100, m at next level, right associativity) : py_scope.
Notation "m ;; k" := (bind m (λ _, k))
  (at level 100, right associativity) : py_scope.
Open Scope py_scope.

(** ** Primitive operations *)

(** [os.path.exists(p)] as a test on a filesystem. *)
Definition exists_in (f : filesystem) (p : string) : bool :=
  bool_decide (is_Some (f !! p)).

(** [os.path.isfile(p)] as a test on a filesystem. *)
Definition isfile_in (f : filesystem) (p : string) : bool :=
  match f !! p with
  | Some (File _) => true
  | _ => false
  end.

(** [q] is the directory [d] or lies below it. *)
Definition under (d q : string) : bool :=
  bool_decide (q = d) || Str.startswith (d +:+ "/") q.

Definition set_fs (f : filesystem) (w : world) : world :=
  World f (log w) (trace w) (clock w).

Section Primitives.
Context (E : env).

Definition os_path_exists (p : string) : M bool :=
  λ w, (w, inr (exists_in (fs w) p)).

(** [logging.<level>(msg)] *)
Definition logging (l : level) (msg : string) : M unit :=
  λ w, (World (fs w) (log w ++ [(l, msg)]) (trace w) (clock w), inr tt).

(** [time.time()] *)
Definition time_now : M Z :=
  λ w, (World (fs w) (log w) (trace w) (S (clock w)), inr (time_time E (clock w))).

(** A file operation: either the operating system refuses it, or it has its
    effect [eff] on the filesystem (which may itself find the operation
    impossible). *)
Definition fs_operation (op : fs_op) (eff : filesystem → oserror + filesystem) : M unit :=
  λ w, match os_fault E op (fs w) with
       | Some o => (w, inl (exn_of_oserror o))
       | None =>
           match eff (fs w) with
           | inl o => (w, inl (exn_of_oserror o))
           | inr f' => (set_fs f' w, inr tt)
           end
       end.

(** [os.makedirs(p, exist_ok=True)] *)
Definition os_makedirs (p : string) : M unit :=
  fs_operation (Makedirs p) (λ f,
    match f !! p with
    | Some (File _) => inl (EOTHER ("File exists: " +:+ p))
    | Some Dir => inr f
    | None => inr (<[p := Dir]> f)
    end).

(** [shutil.copy2(src, dst)]: into [dst] when [dst] is an existing directory,
    onto [dst] otherwise. *)
Definition shutil_copy2 (src dst : string) : M unit :=
  fs_operation (Copy2 src dst) (λ f,
    match f !! src with
    | Some (File c) =>
        let real_dst :=
          match f !! dst with
          | Some Dir => Path.join dst (Path.basename src)
          | _ => dst
          end in
        if decide (src = real_dst)
        then inl (EOTHER (src +:+ " and " +:+ real_dst +:+ " are the same file"))
        else inr (<[real_dst := File c]> f)
    | Some Dir => inl (EOTHER ("Is a directory: " +:+ src))
    | None => inl (ENOENT ("No such file or directory: " +:+ src))
    end).

(** [os.remove(p)] *)
Definition os_remove (p : string) : M unit :=
  fs_operation (Remove p) (λ f,
    match f !! p with
    | Some (File _) => inr (delete p f)
    | Some Dir => inl (EOTHER ("Is a directory: " +:+ p))
    | None => inl (ENOENT ("No such file or directory: " +:+ p))
    end).

(** [shutil.rmtree(p)] *)
Definition shutil_rmtree (p : string) : M unit :=
  fs_operation (Rmtree p) (λ f,
    match f !! p with
    | Some Dir => inr (filter (λ kv, under p kv.1 = false) f)
    | Some (File _) => inl (EOTHER ("Not a directory: " +:+ p))
    | None => inl (ENOENT ("No such file or directory: " +:+ p))
    end).

(** [shutil.move(src, dst)] of a regular file: into [dst] when [dst] is an
    existing directory, onto [dst] otherwise. *)
Definition shutil_move (src dst : string) : M unit :=
  fs_operation (Move src dst) (λ f,
    match f !! src with
    | None => inl (ENOENT ("No such file or directory: " +:+ src))
    | Some n =>
        match f !! dst with
        | Some Dir =>
            let real_dst := Path.join dst (Path.basename src) in
            if exists_in f real_dst
            then inl (EOTHER ("Destination path already exists: " +:+ real_dst))
            else inr (<[real_dst := n]> (delete src f))
        | _ => inr (<[dst := n]> (delete src f))
        end
    end).

(** [ET.ElementTree(root).write(p, encoding="utf-8", xml_declaration=True)] *)
Definition tree_write (root : element) (p : string) : M unit :=
  fs_operation (TreeWrite p) (λ f,
    match f !! p with
    | Some Dir => inl (EOTHER ("Is a directory: " +:+ p))
    | _ => inr (<[p := File (XmlDoc root)]> f)
    end).

(** [subprocess.run(argv, stdout=PIPE, stderr=PIPE, text=True, check=check)] *)
Definition subprocess_run (argv : list string) (check : bool) : M completed :=
  λ w,
    let '(r, f') := spawn E argv (fs w) in
    let w' := World f' (log w) (trace w ++ [Spawn argv (fs w)]) (clock w) in
    match r with
    | inl o => (w', inl (exn_of_oserror o))
    | inr c =>
        if check && negb (bool_decide (returncode c = 0%Z))
        then (w', inl (Exn SubprocessError
                ("Command returned non-zero exit status " +:+ pretty (returncode c))))
        else (w', inr c)
    end.

(** [vsdx.VisioFile(p)] *)
Definition vsdx_VisioFile (p : string) : M drawing :=
  λ w, (World (fs w) (log w) (trace w ++ [OpenVisio p]) (clock w), VisioFile E p (fs w)).

End Primitives.

(** ** Constants *)

Definition APP_NAME : string := "VDXConvert".
Definition SUPPORTED_EXTENSIONS : list string := [".vsd"; ".vsdx"; ".vsdm"; ".vdw"].
Definition INPUT_DIR (E : env) : string := Path.join (SCRIPT_DIR E) "input".
Definition OUTPUT_DIR (E : env) : string := Path.join (SCRIPT_DIR E) "output".
Definition ARCHIVE_DIR (E : env) : string := Path.join (SCRIPT_DIR E) "archive".
Definition LOGS_DIR (E : env) : string := Path.join (SCRIPT_DIR E) "logs".

(** [x in l] for a list of strings *)
Definition str_in (x : string) (l : list string) : bool := bool_decide (x ∈ l).

(** ** File handling: [get_unique_filename] *)

(** The [while True] loop of [get_unique_filename], for at most [fuel]
    iterations: [None] when the fuel runs out before an unused name is met. *)
Fixpoint probe (f : filesystem) (directory name ext : string)
    (fuel counter : nat) : option string :=
  match fuel with
  | O => None
  | S fuel' =>
      let new_filepath := Path.join directory (name +:+ "_" +:+ pretty counter +:+ ext) in
      if negb (exists_in f new_filepath) then Some new_filepath
      else probe f directory name ext fuel' (S counter)
  end.

Definition get_unique_filename_fuel (fuel : nat) (f : filesystem) (filepath : string)
    : option string :=
  if negb (exists_in f filepath) then Some filepath
  else
    let '(directory, filename) := Path.split filepath in
    let '(name, ext) := Path.splitext filename in
    probe f directory name ext fuel 1.

(** The loop is given one more iteration than there are paths in the
    filesystem; [probe_enough_fuel] below shows that this is always enough. *)
Definition get_unique_filename (f : filesystem) (filepath : string) : option string :=
  get_unique_filename_fuel (S (size f)) f filepath.

(** The candidate the loop tries at iteration [k]. *)
Definition candidate (filepath : string) (k : nat) : string :=
  let '(directory, filename) := Path.split filepath in
  let '(name, ext) := Path.splitext filename in
  Path.join directory (name +:+ "_" +:+ pretty k +:+ ext).

(** ** Conversion: the native backend *)

(** [enumerate(l, 1)] followed by a map *)
Definition enumerate1 {A B} (g : nat → A → B) (l : list A) : list B :=
  imap (λ i x, g (S i) x) l.

Definition text_elem (tag txt : string) : element := Element tag [] (Some txt) [].

(** The body of the inner loop of [convert_vsdx_to_vdx]: one [Shape] element. *)
Definition build_shape (shape_id : nat) (s : shape) : element :=
  let name :=
    match shape_name s with
    | Some n => if decide (n = "") then "Shape_" +:+ pretty shape_id else n
    | None => "Shape_" +:+ pretty shape_id
    end in
  let position :=
    match shape_x s, shape_y s with
    | Some x, Some y => [text_elem "PosX" x; text_elem "PosY" y]
    | _, _ => []
    end in
  let extent :=
    match shape_width s, shape_height s with
    | Some wd, Some ht => [text_elem "Width" wd; text_elem "Height" ht]
    | _, _ => []
    end in
  Element "Shape" [("ID", pretty shape_id); ("Name", name)] None
    [Element "ShapeProperties" [] None (position ++ extent)].

(** The body of the outer loop: one [Page] element. *)
Definition build_page (idx : nat) (p : page) : element :=
  Element "Page" [("ID", pretty idx); ("Name", page_name p)] None
    [Element "PageProperties" [] None
       [text_elem "PageWidth" (page_width p); text_elem "PageHeight" (page_height p)];
     Element "Shapes" [] None (enumerate1 build_shape (page_shapes p))].

(** The tree [vdx_root] that [convert_vsdx_to_vdx] has built when it reaches
    [tree.write]. *)
Definition build_vdx (input_file : string) (d : drawing) : element :=
  Element "VisioDocument" [("xmlns", "http://schemas.microsoft.com/visio/2003/core")] None
    [Element "DocumentProperties" [] None
       [text_elem "Title" (Path.basename input_file); text_elem "Creator" "VDXConvert"];
     Element "Pages" [] None (enumerate1 build_page (pages d))].

Section Conversion.
Context (E : env).

Definition convert_vsdx_to_vdx (input_file output_file : string) : M bool :=
  if negb (VSDX_SUPPORT E)
  then raise (Exn ImportError "vsdx library is required for processing .vsdx files")
  else
    try_except
      (drawing <- vsdx_VisioFile E input_file;;
       tree_write E (build_vdx input_file drawing) output_file;;
       ret true)
      (λ e,
        logging ERROR ("Error converting " +:+ input_file +:+ " to VDX: " +:+ exn_msg e);;
        logging DEBUG (format_exc E e);;
        ret false).

(** ** Conversion: the external-process backends *)

Definition temp_dir : string := Path.join (LOGS_DIR E) "temp".

Definition unoconv_argv (input_file : string) : list string :=
  ["unoconv"; "-f"; "vdx"; "-o"; temp_dir; input_file].

Definition soffice_argv (input_file : string) : list string :=
  ["soffice"; "--headless"; "--convert-to"; "vdx"; "--outdir"; temp_dir; input_file].

(** The part of a backend attempt both backends share: run the command,
    then look for the artifact and deliver it.  [Some true] stands for
    [return True]; [None] for falling out of the [try] block. *)
Definition run_and_collect (argv : list string) (base_name output_file : string)
    : M (option bool) :=
  subprocess_run E argv true;;
  let temp_vdx := Path.join temp_dir (base_name +:+ ".vdx") in
  found <- os_path_exists temp_vdx;;
  if found : bool then
    shutil_copy2 E temp_vdx output_file;;
    os_remove E temp_vdx;;
    ret (Some true)
  else ret None.

(** First [try] block: unoconv. *)
Definition attempt_unoconv (input_file base_name output_file : string) : M (option bool) :=
  try_except
    (logging DEBUG ("Attempting conversion with unoconv: " +:+ input_file);;
     run_and_collect (unoconv_argv input_file) base_name output_file)
    (λ e,
      if is_subprocess_or_not_found e
      then logging DEBUG ("unoconv conversion failed: " +:+ exn_msg e);; ret None
      else raise e).

(** Second [try] block: LibreOffice. *)
Definition attempt_soffice (input_file base_name output_file : string) : M (option bool) :=
  try_except
    (logging DEBUG ("Attempting conversion with LibreOffice: " +:+ input_file);;
     run_and_collect (soffice_argv input_file) base_name output_file)
    (λ e,
      if is_subprocess_or_not_found e
      then
        logging DEBUG ("LibreOffice conversion failed: " +:+ exn_msg e);;
        logging ERROR ("Failed to convert " +:+ input_file +:+ " to VDX format.");;
        ret (Some false)
      else raise e).

(** The [finally] clause. *)
Definition cleanup_temp_dir : M unit :=
  found <- os_path_exists temp_dir;;
  if found : bool then try_except (shutil_rmtree E temp_dir) (λ _, ret tt)
  else ret tt.

(** The outer [try] block. *)
Definition convert_vsd_body (input_file output_file : string) : M bool :=
  os_makedirs E temp_dir;;
  let base_name := (Path.splitext (Path.basename input_file)).1 in
  r1 <- attempt_unoconv input_file base_name output_file;;
  match r1 with
  | Some b => ret b
  | None =>
      r2 <- attempt_soffice input_file base_name output_file;;
      match r2 with
      | Some b => ret b
      | None =>
          logging ERROR ("All conversion methods failed for " +:+ input_file);;
          ret false
      end
  end.

Definition convert_vsd_to_vdx (input_file output_file : string) : M bool :=
  try_finally
    (try_except
       (convert_vsd_body input_file output_file)
       (λ e,
         logging ERROR ("Error during VSD to VDX conversion: " +:+ exn_msg e);;
         logging DEBUG (format_exc E e);;
         ret false))
    cleanup_temp_dir.

End Conversion.

(** ** Per-file processing *)

(** The dictionary [process_file] returns. *)
Record ConversionResult := Result {
  filename : string;
  output : option string;
  archive : option string;
  success : bool;
  time : Z;
  error : option string
}.

Section Processing.
Context (E : env).

(** The first statement of the [try] block of [process_file]: the choice of
    the backend by extension, which leaves its verdict in [success]. *)
Definition dispatch (input_file ext output_file : string)
    (vsdx_support vsd_support : bool) : M bool :=
  if str_in ext [".vsdx"; ".vsdm"] then
    if vsdx_support then convert_vsdx_to_vdx E input_file output_file
    else
      logging ERROR ("Cannot process " +:+ ext +:+ " files: vsdx library not available");;
      ret false
  else if str_in ext [".vsd"; ".vdw"] then
    if vsd_support then convert_vsd_to_vdx E input_file output_file
    else
      logging ERROR ("Cannot process " +:+ ext +:+ " files: LibreOffice/unoconv not available");;
      ret false
  else
    logging ERROR ("Unsupported file extension: " +:+ ext);;
    ret false.

(** The body of the [try] block of [process_file]. *)
Definition process_file_try (input_file filename ext output_file archive_file : string)
    (start_time : Z) (vsdx_support vsd_support : bool) : M ConversionResult :=
  success <- dispatch input_file ext output_file vsdx_support vsd_support;;
  end_time <- time_now E;;
  let processing_time := (end_time - start_time)%Z in
  if success : bool then
    shutil_move E input_file archive_file;;
    logging INFO ("✅ Conversion successful: " +:+ Path.basename output_file +:+
                  " (" +:+ format_2f E processing_time +:+ "s)");;
    ret (Result filename (Some (Path.basename output_file))
           (Some (Path.basename archive_file)) true processing_time None)
  else
    logging ERROR ("❌ Conversion failed: " +:+ filename);;
    ret (Result filename None None false processing_time
           (Some "Conversion process failed")).

(** The [except Exception as e] clause of [process_file]. *)
Definition process_file_except (filename : string) (start_time : Z) (e : exn)
    : M ConversionResult :=
  end_time <- time_now E;;
  let processing_time := (end_time - start_time)%Z in
  logging ERROR ("❌ Error processing " +:+ filename +:+ ": " +:+ exn_msg e);;
  logging DEBUG (format_exc E e);;
  ret (Result filename None None false processing_time (Some (exn_msg e))).

(** The names [process_file] derives from its input before the [try]. *)
Definition output_path (input_file : string) : string :=
  Path.join (OUTPUT_DIR E)
    ((Path.splitext (Path.basename input_file)).1 +:+ ".vdx").

Definition archive_path (input_file : string) : string :=
  Path.join (ARCHIVE_DIR E) (Path.basename input_file).

(** [process_file].  The result is [None] only if one of the two
    [get_unique_filename] loops does not finish. *)
Definition process_file (input_file : string) (vsdx_support vsd_support : bool)
    (w : world) : option (world * (exn + ConversionResult)) :=
  let filename := Path.basename input_file in
  let '(base_name, ext) := Path.splitext filename in
  let ext := Str.lower ext in
  let '(w1, start) := time_now E w in
  match start with
  | inl e => Some (w1, inl e)
  | inr start_time =>
      output_file ← get_unique_filename (fs w1) (Path.join (OUTPUT_DIR E) (base_name +:+ ".vdx"));
      archive_file ← get_unique_filename (fs w1) (Path.join (ARCHIVE_DIR E) filename);
      Some
        ((logging INFO ("Processing: " +:+ filename);;
          try_except
            (process_file_try input_file filename ext output_file archive_file
               start_time vsdx_support vsd_support)
            (process_file_except filename start_time)) w1)
  end.

End Processing.

(** ** The batch *)

Section Batch.
Context (E : env).

(** [check_dependencies], on a POSIX host.  The list of missing
    dependencies and the two flags are threaded through the blocks that
    update them. *)
Definition check_dependencies : M (bool * bool * list string) :=
  missing0 <-
    (if negb (VSDX_SUPPORT E) then
       logging WARNING "vsdx module not found. .vsdx and .vsdm processing will be limited.";;
       ret ["vsdx"]
     else ret []);;
  lo <-
    try_except
      (try_except
         (result <- subprocess_run E ["which"; "soffice"] true;;
          if negb (bool_decide (stdout result = "")) then
            logging DEBUG ("LibreOffice found at: " +:+ Str.strip (stdout result));;
            ret (true, missing0)
          else ret (false, missing0))
         (λ e,
           if is_subprocess_or_not_found e then
             logging WARNING "LibreOffice not found. .vsd and .vdw processing will be limited.";;
             ret (false, missing0 ++ ["LibreOffice"])
           else raise e))
      (λ e,
        logging ERROR ("Error checking for LibreOffice: " +:+ exn_msg e);;
        ret (false, missing0));;
  let '(has_libreoffice, missing1) := lo in
  un <-
    try_except
      (result <- subprocess_run E ["which"; "unoconv"] false;;
       if bool_decide (returncode result = 0%Z) then
         logging DEBUG ("unoconv found at: " +:+ Str.strip (stdout result));;
         ret (true, missing1)
       else
         logging WARNING "unoconv not found. .vsd and .vdw processing will be limited.";;
         ret (false, missing1 ++ ["unoconv"]))
      (λ e,
        if is_subprocess_or_not_found e then
          logging WARNING "unoconv not found. .vsd and .vdw processing will be limited.";;
          ret (false, missing1 ++ ["unoconv"])
        else raise e);;
  let '(has_unoconv, missing_deps) := un in
  let vsd_support := has_libreoffice || has_unoconv in
  ret (VSDX_SUPPORT E, vsd_support, missing_deps).

(** [get_visio_files] *)
Definition get_visio_files (directory : string) : M (list string) :=
  λ w,
    match os_listdir E directory (fs w) with
    | inl o => (w, inl (exn_of_oserror o))
    | inr names =>
        (w, inr (omap (λ filename,
                   let filepath := Path.join directory filename in
                   if isfile_in (fs w) filepath then
                     let ext := (Path.splitext (Str.lower filename)).2 in
                     if str_in ext SUPPORTED_EXTENSIONS then Some filepath else None
                   else None) names))
    end.

(** The loop of [main] over the discovered files, [results] being the list
    accumulated so far.  With or without the progress bar the loop body is
    the same. *)
Fixpoint process_loop (visio_files : list string) (vsdx_support vsd_support : bool)
    (results : list ConversionResult) (w : world)
    : option (world * (exn + list ConversionResult)) :=
  match visio_files with
  | [] => Some (w, inr results)
  | input_file :: rest =>
      match process_file E input_file vsdx_support vsd_support w with
      | None => None
      | Some (w1, inl e) => Some (w1, inl e)
      | Some (w1, inr result) =>
          process_loop rest vsdx_support vsd_support (results ++ [result]) w1
      end
  end.

(** [main] up to the point where the results are handed to the report:
    the directories, the dependency check, discovery and the loop.  The
    value is the pair of the discovered files and the results, or [None]
    for the early return when nothing was discovered. *)
Definition main_prepare : M (bool * bool * list string * list string) :=
  os_makedirs E (LOGS_DIR E);;
  os_makedirs E (INPUT_DIR E);;
  os_makedirs E (OUTPUT_DIR E);;
  os_makedirs E (ARCHIVE_DIR E);;
  os_makedirs E (LOGS_DIR E);;
  logging INFO "Checking dependencies...";;
  deps <- check_dependencies;;
  logging INFO "Scanning input directory...";;
  visio_files <- get_visio_files (INPUT_DIR E);;
  ret (deps, visio_files).

Definition main (w : world)
    : option (world * (exn + option (list string * list ConversionResult))) :=
  match main_prepare w with
  | (w1, inl e) => Some (w1, inl e)
  | (w1, inr (vsdx_support, vsd_support, _, visio_files)) =>
      if bool_decide (visio_files = []) then
        Some ((logging WARNING "No Visio files found in input directory.";;
               ret None) w1)
      else
        let '(w2, _) :=
          logging INFO ("Found " +:+ pretty (length visio_files) +:+
                        " Visio files to process") w1 in
        match process_loop visio_files vsdx_support vsd_support [] w2 with
        | None => None
        | Some (w3, inl e) => Some (w3, inl e)
        | Some (w3, inr results) => Some (w3, inr (Some (visio_files, results)))
        end
  end.

End Batch.

(** ** Vocabulary of the statements *)

(** The name the loop of [get_unique_filename] tries at iteration [k]. *)
Definition probe_name (directory name ext : string) (k : nat) : string :=
  Path.join directory (name +:+ "_" +:+ pretty k +:+ ext).

(** [os.path.join] only ever adds a prefix that is determined by its first
    argument, as long as the second is not absolute. *)
Definition join_prefix (d : string) : string :=
  if decide (d = "") then ""
  else if Str.endswith_char "/" d then d
  else d +:+ "/".

(** The three [return] statements of [process_file]. *)
Definition success_record (fn out arch : string) (t : Z) : ConversionResult :=
  Result fn (Some (Path.basename out)) (Some (Path.basename arch)) true t None.

Definition failure_record (fn : string) (t : Z) (reason : string) : ConversionResult :=
  Result fn None None false t (Some reason).

(** ** Sample inputs *)

(** An environment in which nothing external works: no program can be
    launched, the parser rejects every file, directories cannot be listed. *)
Definition bare_env : env := {|
  VSDX_SUPPORT := true;
  SCRIPT_DIR := "/app";
  time_time := λ n, Z.of_nat n;
  format_2f := λ z, pretty z;
  format_exc := λ e, "Traceback (most recent call last): " +:+ exn_msg e;
  spawn := λ _ f, (inl (ENOENT "No such file or directory"), f);
  VisioFile := λ _ _, inl (Exn OtherException "File is not a zip file");
  os_fault := λ _ _, None;
  os_listdir := λ _ _, inl (ENOENT "No such file or directory")
|}.

Definition sample_file : node := File (Raw "vdx").

(** An output directory that already holds [foo.vdx], and one that also holds
    [foo_1.vdx]. *)
Definition fs_one_foo : filesystem := {[ "/app/output/foo.vdx" := sample_file ]}.
Definition fs_two_foo : filesystem :=
  <[ "/app/output/foo_1.vdx" := sample_file ]> fs_one_foo.

(** A document with two pages, of three and of no shapes; the second shape
    has no name and the third exposes neither position nor size. *)
Definition sample_drawing : drawing :=
  Drawing
    [Page "Page-1" "8.5" "11.0"
       [Shape (Some "Process") (Some "1.0") (Some "2.0") (Some "3.0") (Some "0.75");
        Shape None (Some "4.0") (Some "2.0") (Some "1.5") (Some "0.75");
        Shape (Some "") None None None None];
     Page "Page-2" "8.5" "11.0" []].

(** The scenario of the specification: the parser is present and accepts the
    input, no external converter is installed ([which] answers with exit
    status 1, nothing else can be launched), and the input directory holds
    [a.vsdx], [b.vsd] and a file that is no drawing. *)
Definition scenario_env : env := {|
  VSDX_SUPPORT := true;
  SCRIPT_DIR := "/app";
  time_time := λ n, Z.of_nat n;
  format_2f := λ z, pretty z;
  format_exc := λ e, "Traceback (most recent call last): " +:+ exn_msg e;
  spawn := λ argv f,
    match argv with
    | "which" :: _ => (inr (Completed 1 ""), f)
    | _ => (inl (ENOENT "No such file or directory"), f)
    end;
  VisioFile := λ _ _, inr sample_drawing;
  os_fault := λ _ _, None;
  os_listdir := λ _ _, inr ["a.vsdx"; "b.vsd"; "notes.txt"]
|}.

Definition scenario_fs : filesystem :=
  <[ "/app/input/a.vsdx" := File (Raw "a") ]>
  (<[ "/app/input/b.vsd" := File (Raw "b") ]>
  {[ "/app/input/notes.txt" := File (Raw "n") ]}).

Definition scenario_world : world := World scenario_fs [] [] 0.

(** ** Backend availability *)

(** The lower-cased extension [process_file] dispatches on. *)
Definition ext_of (input_file : string) : string :=
  Str.lower (Path.splitext (Path.basename input_file)).2.

(** The extension class of the input has no available backend. *)
Definition no_backend (ext : string) (vsdx_support vsd_support : bool) : bool :=
  (str_in ext [".vsdx"; ".vsdm"] && negb vsdx_support) ||
  (str_in ext [".vsd"; ".vdw"] && negb vsd_support).

(** A message that speaks of a backend not being available. *)
Definition mentions_unavailability (msg : string) : bool :=
  Str.contains "not available" msg || Str.contains "unavailable" msg.

(** The reading of "the error description of the result mentions backend
    unavailability" for inputs whose extension class has no backend. *)
Definition error_field_mentions_unavailability : Prop :=
  ∀ E input_file vs vd w w' r,
    no_backend (ext_of input_file) vs vd = true →
    process_file E input_file vs vd w = Some (w', inr r) →
    ∃ msg, error r = Some msg ∧ mentions_unavailability msg = true.

(** One more reading of the clock. *)
Definition tick (w : world) : world :=
  World (fs w) (log w) (trace w) (S (clock w)).

(** The world in which the [try] block of [process_file] starts. *)
Definition try_start (input_file : string) (w : world) : world :=
  World (fs w) (log w ++ [(INFO, "Processing: " +:+ Path.basename input_file)])
        (trace w) (S (clock w)).

(** The scenario, with an archive directory into which nothing can be moved. *)
Definition archive_denied_env : env := {|
  VSDX_SUPPORT := true;
  SCRIPT_DIR := "/app";
  time_time := λ n, Z.of_nat n;
  format_2f := λ z, pretty z;
  format_exc := λ e, "Traceback (most recent call last): " +:+ exn_msg e;
  spawn := spawn scenario_env;
  VisioFile := λ _ _, inr sample_drawing;
  os_fault := λ op _,
    match op with
    | Move _ _ => Some (EOTHER "[Errno 13] Permission denied")
    | _ => None
    end;
  os_listdir := os_listdir scenario_env
|}.

(** The scenario, without the parsing library. *)
Definition no_parser_env : env := {|
  VSDX_SUPPORT := false;
  SCRIPT_DIR := "/app";
  time_time := λ n, Z.of_nat n;
  format_2f := λ z, pretty z;
  format_exc := λ e, "Traceback (most recent call last): " +:+ exn_msg e;
  spawn := spawn scenario_env;
  VisioFile := λ _ _, inr sample_drawing;
  os_fault := λ _ _, None;
  os_listdir := os_listdir scenario_env
|}.

(** ** The external backends *)

(** The artifact a backend is expected to leave in the scratch directory. *)
Definition artifact (E : env) (input_file : string) : string :=
  Path.join (temp_dir E) ((Path.splitext (Path.basename input_file)).1 +:+ ".vdx").

(** A backend run delivers: the process was launched, exited with status
    zero, and the artifact exists afterwards. *)
Definition delivers (r : oserror + completed) (after : filesystem) (art : string) : bool :=
  match r with
  | inr c => bool_decide (returncode c = 0%Z) && exists_in after art
  | inl _ => false
  end.

(** A backend run ends in one of the ways the script provides for: the
    launch is not refused for a reason other than a missing program, and
    afterwards neither the artifact, if there is one, nor the output path is
    a directory. *)
Definition anticipated (r : oserror + completed) (after : filesystem)
    (art out : string) : Prop :=
  (∀ msg, r ≠ inl (EOTHER msg)) ∧ after !! art ≠ Some Dir ∧ after !! out ≠ Some Dir.

(** The reading of "the conversion returns true exactly when some attempted
    backend deposits the artifact, whatever the exit status". *)
Definition success_follows_artifact : Prop :=
  ∀ E input_file output_file w w' b evs,
    convert_vsd_to_vdx E input_file output_file w = (w', inr b) →
    trace w' = trace w ++ evs →
    (b = true ↔
     ∃ argv before, Spawn argv before ∈ evs ∧
       exists_in (spawn E argv before).2 (artifact E input_file) = true).

(** The reading of "after the function returns the scratch directory no
    longer exists, regardless of outcome". *)
Definition scratch_always_removed : Prop :=
  ∀ E input_file output_file w w' r,
    convert_vsd_to_vdx E input_file output_file w = (w', r) →
    fs w' !! temp_dir E = None.

(** No converter is installed and the scratch directory cannot be removed. *)
Definition rmtree_denied_env : env := {|
  VSDX_SUPPORT := true;
  SCRIPT_DIR := "/app";
  time_time := λ n, Z.of_nat n;
  format_2f := λ z, pretty z;
  format_exc := λ e, "Traceback (most recent call last): " +:+ exn_msg e;
  spawn := spawn scenario_env;
  VisioFile := λ _ _, inr sample_drawing;
  os_fault := λ op _,
    match op with
    | Rmtree _ => Some (EOTHER "[Errno 13] Permission denied")
    | _ => None
    end;
  os_listdir := os_listdir scenario_env
|}.

(** unoconv writes the artifact but exits with status 1; LibreOffice is not
    installed. *)
Definition noisy_unoconv_env : env := {|
  VSDX_SUPPORT := true;
  SCRIPT_DIR := "/app";
  time_time := λ n, Z.of_nat n;
  format_2f := λ z, pretty z;
  format_exc := λ e, "Traceback (most recent call last): " +:+ exn_msg e;
  spawn := λ argv f,
    match argv with
    | "unoconv" :: _ => (inr (Completed 1 ""), <[ "/app/logs/temp/b.vdx" := File (Raw "vdx") ]> f)
    | _ => (inl (ENOENT "No such file or directory"), f)
    end;
  VisioFile := λ _ _, inr sample_drawing;
  os_fault := λ _ _, None;
  os_listdir := os_listdir scenario_env
|}.

(** unoconv is not installed; LibreOffice converts. *)
Definition soffice_only_env : env := {|
  VSDX_SUPPORT := true;
  SCRIPT_DIR := "/app";
  time_time := λ n, Z.of_nat n;
  format_2f := λ z, pretty z;
  format_exc := λ e, "Traceback (most recent call last): " +:+ exn_msg e;
  spawn := λ argv f,
    match argv with
    | "soffice" :: _ => (inr (Completed 0 ""), <[ "/app/logs/temp/b.vdx" := File (Raw "vdx") ]> f)
    | _ => (inl (ENOENT "No such file or directory"), f)
    end;
  VisioFile := λ _ _, inr sample_drawing;
  os_fault := λ _ _, None;
  os_listdir := os_listdir scenario_env
|}.

(** ** Reading an emitted document *)

(** The text of the child with tag [t]. *)
Definition child_text (t : string) (e : element) : option string :=
  find t e ≫= text_of.

(** The page elements of a document, in order. *)
Definition page_elements (root : element) : list element :=
  from_option (findall "Page") [] (find "Pages" root).

(** The shape elements of a page element, in order. *)
Definition shape_elements (page_elem : element) : list element :=
  from_option (findall "Shape") [] (find "Shapes" page_elem).

(** ** The summary *)

(** The ANSI sequences of [colorama] the summary uses. *)
Definition ESC : string := String (ascii_of_nat 27) "".
Definition Fore_CYAN : string := ESC +:+ "[36m".
Definition Fore_GREEN : string := ESC +:+ "[32m".
Definition Fore_RED : string := ESC +:+ "[31m".
Definition Style_BRIGHT : string := ESC +:+ "[1m".
Definition Style_RESET_ALL : string := ESC +:+ "[0m".

(** ["=" * n] *)
Fixpoint repeat_char (c : ascii) (n : nat) : string :=
  match n with
  | O => ""
  | S n' => String c (repeat_char c n')
  end.

(** [f"{x}"] for a value that may be [None]. *)
Definition str_opt (o : option string) : string :=
  match o with
  | Some s => s
  | None => "None"
  end.

(** [sum(r['time'] for r in results)] *)
Definition total_time (results : list ConversionResult) : Z :=
  foldr (λ r acc, (time r + acc)%Z) 0%Z results.

(** [sum(1 for r in results if r['success'])] *)
Definition count_successful (results : list ConversionResult) : nat :=
  length (filter (λ r, success r = true) results).

(** The line [print_summary] prints for one failed result. *)
Definition failed_line (color_support : bool) (r : ConversionResult) : string :=
  if color_support
  then "  " +:+ Fore_RED +:+ "✖ " +:+ filename r +:+ ": " +:+ str_opt (error r)
       +:+ Style_RESET_ALL
  else "  ✖ " +:+ filename r +:+ ": " +:+ str_opt (error r).

(** [print_summary]: the arguments of the successive calls of [print].
    [color_support] is the module flag [COLOR_SUPPORT]. *)
Definition print_summary (E : env) (color_support : bool)
    (results : list ConversionResult) : list string :=
  let total := length results in
  let successful := count_successful results in
  let failed := total - successful in
  let total_time := total_time results in
  [String "010" (repeat_char "=" 60)] ++
  [if color_support
   then String "010" (Fore_CYAN +:+ Style_BRIGHT +:+ "VDXConvert Summary" +:+ Style_RESET_ALL)
   else String "010" "VDXConvert Summary"] ++
  [String "010" ("Total files processed: " +:+ pretty total)] ++
  (if color_support
   then ["Successful conversions: " +:+ Fore_GREEN +:+ pretty successful +:+ Style_RESET_ALL;
         "Failed conversions: " +:+ (if bool_decide (0 < failed) then Fore_RED else "")
           +:+ pretty failed +:+ Style_RESET_ALL]
   else ["Successful conversions: " +:+ pretty successful;
         "Failed conversions: " +:+ pretty failed]) ++
  ["Total processing time: " +:+ format_2f E total_time +:+ "s"] ++
  (if bool_decide (0 < failed)
   then String "010" "Failed conversions:" ::
        omap (λ r, if negb (success r) then Some (failed_line color_support r) else None)
             results
   else []) ++
  [String "010" (repeat_char "=" 60 +:+ String "010" "")].

(** ** Computations that leave the clock alone *)

(** [m] does not read the clock and only ever appends to the log. *)
Definition steady {A} (m : M A) : Prop :=
  ∀ w w' r, m w = (w', r) → clock w' = clock w ∧ ∃ l, log w' = log w ++ l.

(** ** The dependency probes *)

(** [which soffice] has found LibreOffice: exit status zero and a path on
    standard output. *)
Definition soffice_found (r : oserror + completed) : bool :=
  match r with
  | inr c => bool_decide (returncode c = 0%Z) && negb (bool_decide (stdout c = ""))
  | inl _ => false
  end.

(** [which unoconv] has found unoconv: exit status zero. *)
Definition unoconv_found (r : oserror + completed) : bool :=
  match r with
  | inr c => bool_decide (returncode c = 0%Z)
  | inl _ => false
  end.

(** The probe of LibreOffice ends in a way that puts it on the list of
    missing dependencies: the program [which] is not there, or it exits with
    a non-zero status. *)
Definition soffice_reported_missing (r : oserror + completed) : bool :=
  match r with
  | inl (ENOENT _) => true
  | inl (EOTHER _) => false
  | inr c => negb (bool_decide (returncode c = 0%Z))
  end.

(** ** What the script leaves alone *)

(** From [f] to [f'] nothing outside the directory [d] has changed, except
    possibly at [out], and [out] has not become a directory; this as long as
    [out] was no directory in [f]. *)
Definition frame (d out : string) (f f' : filesystem) : Prop :=
  f !! out ≠ Some Dir →
  f' !! out ≠ Some Dir ∧ ∀ q, under d q = false → q ≠ out → f' !! q = f !! q.

(** [m] keeps to the frame. *)
Definition framed {A} (d out : string) (m : M A) : Prop :=
  ∀ w w' r, m w = (w', r) → frame d out (fs w) (fs w').

(** The external programs write nowhere but below the scratch directory. *)
Definition confined (E : env) : Prop :=
  ∀ argv f q, under (temp_dir E) q = false → (spawn E argv f).2 !! q = f !! q.

(** unoconv is installed and converts [b.vsd], leaving its artifact in the
    scratch directory; nothing else can be launched. *)
Definition unoconv_env : env := {|
  VSDX_SUPPORT := true;
  SCRIPT_DIR := "/app";
  time_time := λ n, Z.of_nat n;
  format_2f := λ z, pretty z;
  format_exc := λ e, "Traceback (most recent call last): " +:+ exn_msg e;
  spawn := λ argv f,
    if bool_decide (argv = ["unoconv"; "-f"; "vdx"; "-o"; "/app/logs/temp";
                            "/app/input/b.vsd"])
    then (inr (Completed 0 ""), <[ "/app/logs/temp/b.vdx" := File (Raw "b as vdx") ]> f)
    else (inl (ENOENT "No such file or directory"), f);
  VisioFile := λ _ _, inr sample_drawing;
  os_fault := λ _ _, None;
  os_listdir := os_listdir scenario_env
|}.

(** The scenario's input directory with a drawing [c.vdw] added. *)
Definition fs_with_vdw : filesystem :=
  <[ "/app/input/c.vdw" := File (Raw "c") ]> scenario_fs.

(** * Properties *)

(** ** Examples of the path functions *)

Example split_examples :
  Path.split "/app/output/foo.vdx" = ("/app/output", "foo.vdx") ∧
  Path.split "foo.vdx" = ("", "foo.vdx") ∧
  Path.split "/foo.vdx" = ("/", "foo.vdx") ∧
  Path.split "a//foo" = ("a", "foo") ∧
  Path.split "a/b/" = ("a/b", "").
Proof. by vm_compute. Qed.

Example splitext_examples :
  Path.splitext "foo.vdx" = ("foo", ".vdx") ∧
  Path.splitext ".vsd" = (".vsd", "") ∧
  Path.splitext "a.b/c" = ("a.b/c", "") ∧
  Path.splitext "x/..foo.tar.gz" = ("x/..foo.tar", ".gz") ∧
  Path.splitext "Drawing.VSDX" = ("Drawing", ".VSDX").
Proof. by vm_compute. Qed.

Example join_examples :
  Path.join "/app" "output" = "/app/output" ∧
  Path.join "/" "output" = "/output" ∧
  Path.join "" "foo_1.vdx" = "foo_1.vdx" ∧
  Path.join "/app/" "x" = "/app/x" ∧
  Path.join "/app" "/abs" = "/abs".
Proof. by vm_compute. Qed.

Example lower_example : Str.lower ".VsDx" = ".vsdx".
Proof. by vm_compute. Qed.

(** ** Strings and paths *)

Section StringFacts.
Implicit Types (s t p : string) (c a : ascii).

Lemma str_app_nil_l s : "" +:+ s = s.
Proof. reflexivity. Qed.

Lemma str_app_cons a s t : String a s +:+ t = String a (s +:+ t).
Proof. reflexivity. Qed.

Lemma str_app_nil_r s : s +:+ "" = s.
Proof. induction s as [|a s IH]; [done|]. by rewrite str_app_cons, IH. Qed.

Lemma str_app_assoc s t p : (s +:+ t) +:+ p = s +:+ t +:+ p.
Proof. induction s as [|a s IH]; [done|]. by rewrite !str_app_cons, IH. Qed.

Lemma str_length_app s t : String.length (s +:+ t) = String.length s + String.length t.
Proof. induction s as [|a s IH]; [done|]. rewrite str_app_cons. simpl. by rewrite IH. Qed.

(** Cancellation of a common suffix. *)
Lemma str_app_inj_r s t p : s +:+ p = t +:+ p → s = t.
Proof.
  revert t. induction s as [|a s IH]; intros [|b t] H; [done| | |].
  - apply (f_equal String.length) in H. rewrite str_app_nil_l, str_app_cons in H.
    simpl in H. rewrite str_length_app in H. lia.
  - apply (f_equal String.length) in H. rewrite str_app_nil_l, str_app_cons in H.
    simpl in H. rewrite str_length_app in H. lia.
  - rewrite !str_app_cons in H. injection H as -> H. f_equal. by apply IH.
Qed.

Lemma startswith_app p s t : Str.startswith (p +:+ s) (p +:+ t) = Str.startswith s t.
Proof.
  induction p as [|a p IH]; [done|]. rewrite !str_app_cons. simpl.
  by rewrite decide_True.
Qed.

Lemma startswith_app_l p s : Str.startswith p (p +:+ s) = true.
Proof.
  rewrite <-(str_app_nil_r p) at 1. rewrite startswith_app. by destruct s.
Qed.

Lemma has_char_app c s t :
  Str.has_char c (s +:+ t) = Str.has_char c s || Str.has_char c t.
Proof.
  induction s as [|a s IH]; [done|]. rewrite str_app_cons. simpl.
  by destruct (decide (a = c)).
Qed.

Lemma rsplit1_None c s : Str.has_char c s = false → Str.rsplit1 c s = None.
Proof.
  induction s as [|a s IH]; [done|]. simpl.
  destruct (decide (a = c)); [done|]. intros H. by rewrite (IH H).
Qed.

Lemma rsplit1_app c s t :
  Str.has_char c t = false → Str.rsplit1 c (s +:+ String c t) = Some (s, t).
Proof.
  intros Ht. induction s as [|a s IH].
  - rewrite str_app_nil_l. simpl. rewrite (rsplit1_None _ _ Ht). by rewrite decide_True.
  - rewrite str_app_cons. simpl. by rewrite IH.
Qed.

(** What [rsplit1] returns is a decomposition around a [c] that is the last
    one. *)
Lemma rsplit1_Some c s h t :
  Str.rsplit1 c s = Some (h, t) → s = h +:+ String c t ∧ Str.has_char c t = false.
Proof.
  revert h. induction s as [|a s IH]; intros h; [done|]. simpl.
  destruct (Str.rsplit1 c s) as [[h' t']|] eqn:Hs.
  - intros [= <- <-]. destruct (IH _ eq_refl) as [-> ?]. by rewrite str_app_cons.
  - destruct (decide (a = c)) as [->|]; [|done]. intros [= <- <-].
    split; [done|]. clear IH. induction s as [|b s IH]; [done|].
    simpl in *. destruct (Str.rsplit1 c s) as [[??]|]; [done|].
    destruct (decide (b = c)); [done|]. by apply IH.
Qed.

Lemma endswith_char_app c s t :
  t ≠ "" → Str.endswith_char c (s +:+ t) = Str.endswith_char c t.
Proof.
  intros Ht. induction s as [|a s IH]; [done|]. rewrite str_app_cons. simpl.
  destruct (s +:+ t) eqn:Hst; [|done].
  destruct s; [|done]. by rewrite str_app_nil_l in Hst.
Qed.

Lemma all_char_no_end c s t :
  s ≠ "" → Str.endswith_char c s = false → Str.all_char c (s +:+ t) = false.
Proof.
  induction s as [|a s IH]; [done|]. intros _ Hend. rewrite str_app_cons. simpl.
  destruct (decide (a = c)) as [->|]; [|done].
  destruct s as [|b s].
  - simpl in Hend. by rewrite bool_decide_eq_false in Hend.
  - by apply IH.
Qed.

Lemma rstrip_no_end c s :
  s ≠ "" → Str.endswith_char c s = false → Str.rstrip c (s +:+ String c "") = s.
Proof.
  induction s as [|a s IH]; [done|]. intros _ Hend. rewrite str_app_cons. simpl.
  destruct s as [|b s].
  - rewrite str_app_nil_l. simpl. rewrite decide_True by done.
    simpl in Hend. rewrite bool_decide_eq_false in Hend. by rewrite decide_False.
  - rewrite IH; [done|done|]. exact Hend.
Qed.

Lemma startswith_slash_no s :
  s ≠ "" → Str.has_char "/" s = false → ∀ t, Str.startswith "/" (s +:+ t) = false.
Proof.
  destruct s as [|a s]; [done|]. intros _ H t. rewrite str_app_cons. simpl in *.
  destruct (decide (a = "/"%char)) as [->|]; [done|].
  by rewrite decide_False by done.
Qed.

End StringFacts.

Lemma join_relative d x :
  Str.startswith "/" x = false → Path.join d x = join_prefix d +:+ x.
Proof.
  intros Hx. unfold Path.join, join_prefix. rewrite Hx.
  destruct (decide (d = "")); [done|].
  destruct (Str.endswith_char "/" d); [done|]. by rewrite str_app_assoc.
Qed.

Lemma basename_no_slash p : Str.has_char "/" (Path.basename p) = false.
Proof.
  unfold Path.basename. destruct (Str.rsplit1 "/" p) as [[h t]|] eqn:H.
  - by apply rsplit1_Some in H as [_ ?].
  - induction p as [|a p IH]; [done|]. simpl in *.
    destruct (Str.rsplit1 "/" p) as [[??]|]; [done|].
    destruct (decide (a = "/"%char)); [done|]. by apply IH.
Qed.

(** [os.path.split] of a directory and a last component. *)
Lemma split_dir_file d t :
  d ≠ "" → Str.endswith_char "/" d = false → Str.has_char "/" t = false →
  Path.split (d +:+ "/" +:+ t) = (d, t).
Proof.
  intros Hd Hend Ht. unfold Path.split.
  change (d +:+ "/" +:+ t) with (d +:+ String "/" t).
  rewrite (rsplit1_app _ _ _ Ht). cbv zeta.
  rewrite (all_char_no_end _ _ _ Hd Hend).
  by rewrite (rstrip_no_end _ _ Hd Hend).
Qed.

(** [os.path.splitext] of a name without directory part. *)
Lemma splitext_file x :
  Str.has_char "/" x = false →
  Path.splitext x = (x, "") ∨
  ∃ stem e, x = stem +:+ "." +:+ e ∧ Path.splitext x = (stem, "." +:+ e) ∧
            Str.all_char "." stem = false ∧ Str.has_char "." e = false.
Proof.
  intros Hx. unfold Path.splitext. rewrite (rsplit1_None _ _ Hx).
  destruct (Str.rsplit1 "." x) as [[stem e]|] eqn:Hdot; [|by left].
  destruct (Str.all_char "." stem) eqn:Hall; [by left|]. right.
  apply rsplit1_Some in Hdot as [-> ?]. by exists stem, e.
Qed.

Lemma splitext_fst_no_slash x :
  Str.has_char "/" x = false → Str.has_char "/" (Path.splitext x).1 = false.
Proof.
  intros Hx. destruct (splitext_file x Hx) as [->|(stem & e & -> & -> & _)]; [done|].
  rewrite has_char_app in Hx. simpl. by apply orb_false_elim in Hx as [? _].
Qed.

Lemma splitext_name_ext (ext_ : string) x :
  Str.has_char "." ext_ = false → Str.all_char "." x = false →
  Str.has_char "/" x = false → Str.has_char "/" ext_ = false →
  Path.splitext (x +:+ "." +:+ ext_) = (x, "." +:+ ext_).
Proof.
  intros He Hx Hs Hs'. unfold Path.splitext.
  rewrite rsplit1_None.
  2:{ rewrite has_char_app, Hs. exact Hs'. }
  change (x +:+ "." +:+ ext_) with (x +:+ String "." ext_).
  by rewrite (rsplit1_app _ _ _ He), Hx.
Qed.

(** ** [get_unique_filename] *)

Lemma exists_in_true (f : filesystem) p : exists_in f p = true ↔ is_Some (f !! p).
Proof. unfold exists_in. by rewrite bool_decide_eq_true. Qed.

Lemma exists_in_false (f : filesystem) p : exists_in f p = false ↔ f !! p = None.
Proof. unfold exists_in. by rewrite bool_decide_eq_false, eq_None_not_Some. Qed.

Section Probe.
Context (f : filesystem) (directory name ext : string).

Local Abbreviation pname := (probe_name directory name ext).

Lemma probe_name_inj : Inj (=) (=) pname.
Proof.
  intros k k' H. unfold pname, Path.join in H.
  assert (∀ r r', Str.startswith "/" (name +:+ "_" +:+ r)
                  = Str.startswith "/" (name +:+ "_" +:+ r')) as Hsw.
  { intros r r'. destruct name as [|a n]; [done|]. rewrite !str_app_cons. simpl.
    by destruct (decide ("/"%char = a)). }
  rewrite (Hsw (pretty k' +:+ ext) (pretty k +:+ ext)) in H.
  assert (name +:+ "_" +:+ pretty k +:+ ext = name +:+ "_" +:+ pretty k' +:+ ext) as Heq.
  { destruct (Str.startswith "/" _); [done|].
    destruct (decide (directory = "")); [done|].
    destruct (Str.endswith_char "/" directory).
    - by apply (inj (String.app directory)) in H.
    - apply (inj (String.app directory)) in H.
      by apply (inj (String.app "/")) in H. }
  apply (inj (String.app name)), (inj (String.app "_")) in Heq.
  apply str_app_inj_r in Heq. by apply (inj pretty) in Heq.
Qed.

Lemma probe_Some fuel c p :
  probe f directory name ext fuel c = Some p →
  ∃ k, c ≤ k < c + fuel ∧ p = pname k ∧ f !! pname k = None ∧
       ∀ j, c ≤ j < k → is_Some (f !! pname j).
Proof.
  revert c. induction fuel as [|fuel IH]; intros c; [done|]. simpl.
  fold (pname c). destruct (exists_in f (pname c)) eqn:Hex; simpl.
  - intros (k & Hk & -> & Hnone & Hbelow)%IH. exists k.
    split; [lia|]. do 2 (split; [done|]). intros j Hj.
    destruct (decide (j = c)) as [->|]; [by apply exists_in_true|].
    apply Hbelow. lia.
  - intros [= <-]. exists c. split; [lia|]. split; [done|]. split; [by apply exists_in_false|].
    intros j Hj. lia.
Qed.

Lemma probe_None fuel c :
  probe f directory name ext fuel c = None →
  ∀ j, c ≤ j < c + fuel → is_Some (f !! pname j).
Proof.
  revert c. induction fuel as [|fuel IH]; intros c; [intros _ j Hj; lia|]. simpl.
  fold (pname c). destruct (exists_in f (pname c)) eqn:Hex; simpl; [|done].
  intros Hnone j Hj. destruct (decide (j = c)) as [->|]; [by apply exists_in_true|].
  apply (IH _ Hnone). lia.
Qed.

(** More fuel does not change an answer. *)
Lemma probe_fuel_mono fuel fuel' c p :
  fuel ≤ fuel' →
  probe f directory name ext fuel c = Some p →
  probe f directory name ext fuel' c = Some p.
Proof.
  revert fuel' c. induction fuel as [|fuel IH]; intros fuel' c Hle; [done|].
  destruct fuel' as [|fuel']; [lia|]. simpl.
  destruct (negb _); [done|]. apply IH. lia.
Qed.

(** Pigeonhole: the names tried are pairwise different, so no more of them
    exist than the filesystem has paths. *)
Lemma probe_names_bounded c n :
  (∀ j, c ≤ j < c + n → is_Some (f !! pname j)) → n ≤ size f.
Proof.
  intros Hall.
  assert (pname <$> seq c n ⊆+ (map_to_list f).*1) as Hsub.
  { apply NoDup_submseteq.
    - apply (@NoDup_fmap_2 _ _ pname probe_name_inj), NoDup_seq.
    - intros x (j & -> & Hj%elem_of_seq)%list_elem_of_fmap.
      destruct (Hall j Hj) as [v Hv].
      apply list_elem_of_fmap. exists (pname j, v). split; [done|].
      by apply elem_of_map_to_list. }
  apply submseteq_length in Hsub.
  rewrite !length_fmap, length_seq, length_map_to_list in Hsub. exact Hsub.
Qed.

Lemma probe_enough_fuel fuel c :
  size f < fuel → is_Some (probe f directory name ext fuel c).
Proof.
  intros Hfuel. destruct (probe f directory name ext fuel c) eqn:Hp; [done|].
  pose proof (probe_names_bounded c fuel (probe_None _ _ Hp)). lia.
Qed.

End Probe.

Lemma candidate_probe_name filepath k :
  candidate filepath k =
  probe_name (Path.split filepath).1
             (Path.splitext (Path.split filepath).2).1
             (Path.splitext (Path.split filepath).2).2 k.
Proof.
  unfold candidate, probe_name. destruct (Path.split filepath) as [d fn]. simpl.
  by destruct (Path.splitext fn).
Qed.

Lemma get_unique_filename_fuel_unfold fuel (f : filesystem) filepath :
  get_unique_filename_fuel fuel f filepath =
  if negb (exists_in f filepath) then Some filepath
  else probe f (Path.split filepath).1
               (Path.splitext (Path.split filepath).2).1
               (Path.splitext (Path.split filepath).2).2 fuel 1.
Proof.
  unfold get_unique_filename_fuel. destruct (Path.split filepath) as [d fn]. simpl.
  by destruct (Path.splitext fn).
Qed.

(** The full behaviour of [get_unique_filename_fuel] when the fuel suffices. *)
Lemma get_unique_filename_fuel_spec fuel (f : filesystem) filepath :
  size f < fuel →
  (f !! filepath = None ∧ get_unique_filename_fuel fuel f filepath = Some filepath) ∨
  (is_Some (f !! filepath) ∧
   ∃ k, 1 ≤ k ∧ get_unique_filename_fuel fuel f filepath = Some (candidate filepath k) ∧
        f !! candidate filepath k = None ∧
        ∀ j, 1 ≤ j < k → is_Some (f !! candidate filepath j)).
Proof.
  intros Hfuel. rewrite get_unique_filename_fuel_unfold.
  destruct (exists_in f filepath) eqn:Hex; simpl.
  - right. split; [by apply exists_in_true|].
    destruct (probe_enough_fuel f (Path.split filepath).1
                (Path.splitext (Path.split filepath).2).1
                (Path.splitext (Path.split filepath).2).2 fuel 1 Hfuel) as [p Hp].
    rewrite Hp. apply probe_Some in Hp as (k & Hk & -> & Hnone & Hbelow).
    exists k. rewrite !candidate_probe_name. split; [lia|]. do 2 (split; [done|]).
    intros j Hj. rewrite candidate_probe_name. by apply Hbelow.
  - left. split; [by apply exists_in_false|done].
Qed.

Lemma get_unique_filename_total (f : filesystem) filepath :
  ∃ p, get_unique_filename f filepath = Some p ∧ f !! p = None.
Proof.
  unfold get_unique_filename.
  destruct (get_unique_filename_fuel_spec (S (size f)) f filepath) as
    [[? ->]|[_ (k & _ & -> & ? & _)]]; [lia|eauto..].
Qed.

(** The answer is [filepath] or one of its candidates. *)
Lemma get_unique_filename_shape (f : filesystem) filepath p :
  get_unique_filename f filepath = Some p →
  p = filepath ∨ ∃ k, p = candidate filepath k.
Proof.
  unfold get_unique_filename. intros Hp.
  destruct (get_unique_filename_fuel_spec (S (size f)) f filepath) as
    [[? H]|[_ (k & _ & H & _)]]; [lia|..]; rewrite H in Hp; injection Hp as <-; eauto.
Qed.

(** ** The monad *)

Lemma bind_inr {A B} (m : M A) (k : A → M B) w w' a :
  m w = (w', inr a) → bind m k w = k a w'.
Proof. unfold bind. by intros ->. Qed.

Lemma bind_inl {A B} (m : M A) (k : A → M B) w w' e :
  m w = (w', inl e) → bind m k w = (w', inl e).
Proof. unfold bind. by intros ->. Qed.

Lemma try_except_inr {A} (m : M A) h w w' a :
  m w = (w', inr a) → try_except m h w = (w', inr a).
Proof. unfold try_except. by intros ->. Qed.

Lemma try_except_inl {A} (m : M A) h w w' e :
  m w = (w', inl e) → try_except m h w = h e w'.
Proof. unfold try_except. by intros ->. Qed.

(** ** [process_file]: the result record *)

Section ProcessFileFacts.
Context (E : env).

(** The world in which the [try] block of [process_file] starts. *)
Lemma process_file_unfold input_file vs vd w :
  process_file E input_file vs vd w =
  output_file ← get_unique_filename (fs w) (output_path E input_file);
  archive_file ← get_unique_filename (fs w) (archive_path E input_file);
  Some (try_except
          (process_file_try E input_file (Path.basename input_file)
             (Str.lower (Path.splitext (Path.basename input_file)).2)
             output_file archive_file (time_time E (clock w)) vs vd)
          (process_file_except E (Path.basename input_file) (time_time E (clock w)))
          (try_start input_file w)).
Proof.
  unfold process_file, output_path, archive_path.
  destruct (Path.splitext (Path.basename input_file)) as [base_name ext]. simpl.
  destruct (get_unique_filename _ _); [|done]. simpl.
  destruct (get_unique_filename _ _); done.
Qed.

Lemma process_file_try_cases input_file fn ext out arch st vs vd w :
  match process_file_try E input_file fn ext out arch st vs vd w with
  | (w', inr r) =>
      ∃ w1 b, dispatch E input_file ext out vs vd w = (w1, inr b) ∧
        let t := (time_time E (clock w1) - st)%Z in
        if b then r = success_record fn out arch t
        else r = failure_record fn t "Conversion process failed"
  | (w', inl e) => True
  end.
Proof.
  unfold process_file_try, bind.
  destruct (dispatch E input_file ext out vs vd w) as [w1 [e|b]]; [done|].
  simpl. destruct b.
  - destruct (shutil_move E input_file arch _) as [w2 [e|[]]]; [done|].
    simpl. by exists w1, true.
  - simpl. by exists w1, false.
Qed.

Lemma process_file_except_result fn st e w :
  ∃ w', process_file_except E fn st e w =
        (w', inr (failure_record fn (time_time E (clock w) - st) (exn_msg e))).
Proof. unfold process_file_except, bind. simpl. eauto. Qed.

(** [process_file] always returns, and what it returns is one of the three
    records. *)
Lemma process_file_returns input_file vs vd w :
  ∃ out arch w' r,
    get_unique_filename (fs w) (output_path E input_file) = Some out ∧
    get_unique_filename (fs w) (archive_path E input_file) = Some arch ∧
    process_file E input_file vs vd w = Some (w', inr r) ∧
    ∃ t, r = success_record (Path.basename input_file) out arch t ∨
         ∃ reason, r = failure_record (Path.basename input_file) t reason.
Proof.
  rewrite process_file_unfold.
  destruct (get_unique_filename_total (fs w) (output_path E input_file)) as (o & Ho & _).
  destruct (get_unique_filename_total (fs w) (archive_path E input_file)) as (a & Ha & _).
  rewrite Ho, Ha. simpl. exists o, a. unfold try_except.
  match goal with |- context [process_file_try E ?x1 ?x2 ?x3 ?x4 ?x5 ?x6 ?x7 ?x8 ?x9] =>
    pose proof (process_file_try_cases x1 x2 x3 x4 x5 x6 x7 x8 x9) as Hc;
    destruct (process_file_try E x1 x2 x3 x4 x5 x6 x7 x8 x9) as [w1 [e|r]] end.
  - destruct (process_file_except_result (Path.basename input_file)
                (time_time E (clock w)) e w1) as [w' ->].
    eexists _, _. do 3 (split; [done|]). eauto.
  - destruct Hc as (w2 & b & _ & Hr). eexists _, _. do 3 (split; [done|]).
    destruct b; cbv zeta in Hr; subst r; eauto.
Qed.

End ProcessFileFacts.

(** ** File operations *)

Section OperationFacts.
Context (E : env).

(** A file operation either has its effect or raises an [OSError] and
    leaves the world as it was. *)
Lemma fs_operation_cases op eff w :
  (∃ f', os_fault E op (fs w) = None ∧ eff (fs w) = inr f' ∧
         fs_operation E op eff w = (set_fs f' w, inr tt)) ∨
  (∃ o, fs_operation E op eff w = (w, inl (exn_of_oserror o))).
Proof.
  unfold fs_operation. destruct (os_fault E op (fs w)) as [o|]; [right; eauto|].
  destruct (eff (fs w)) as [o|f']; [right; eauto|left; eauto].
Qed.

Lemma fs_operation_outcome op eff w :
  (∃ f', fs_operation E op eff w = (set_fs f' w, inr tt)) ∨
  (∃ o, fs_operation E op eff w = (w, inl (exn_of_oserror o))).
Proof.
  destruct (fs_operation_cases op eff w) as [(f' & _ & _ & ->)|[o ->]]; eauto.
Qed.

Lemma exn_of_oserror_cls o : exn_cls (exn_of_oserror o) ≠ ImportError.
Proof. by destruct o. Qed.

(** The [finally] clause of [convert_vsd_to_vdx] never raises; it either
    leaves the filesystem alone or removes the scratch directory with
    everything below it. *)
Lemma cleanup_temp_dir_cases w :
  ∃ w', cleanup_temp_dir E w = (w', inr tt) ∧
    log w' = log w ∧ trace w' = trace w ∧ clock w' = clock w ∧
    (fs w' = fs w ∨
     fs w' = filter (λ kv, under (temp_dir E) kv.1 = false) (fs w)).
Proof.
  unfold cleanup_temp_dir, bind, os_path_exists.
  destruct (exists_in (fs w) (temp_dir E)); [|exists w; eauto 10].
  unfold try_except, shutil_rmtree.
  destruct (fs_operation_cases (Rmtree (temp_dir E))
    (λ f, match f !! temp_dir E with
          | Some Dir => inr (filter (λ kv, under (temp_dir E) kv.1 = false) f)
          | Some (File _) => inl (EOTHER ("Not a directory: " +:+ temp_dir E))
          | None => inl (ENOENT ("No such file or directory: " +:+ temp_dir E))
          end) w) as [(f' & _ & Heff & ->)|[o ->]].
  - exists (set_fs f' w). simpl. do 4 (split; [done|]).
    destruct (fs w !! temp_dir E) as [[|c]|]; [|done..]. right. congruence.
  - exists w. unfold ret. eauto 10.
Qed.

Lemma under_refl d : under d d = true.
Proof. unfold under. by rewrite bool_decide_eq_true_2. Qed.

(** Removing the scratch directory leaves the paths outside it alone and
    nothing at or below it. *)
Lemma lookup_rmtree (f : filesystem) d q :
  filter (λ kv, under d kv.1 = false) f !! q
  = if under d q then None else f !! q.
Proof.
  destruct (under d q) eqn:Hu.
  - apply map_lookup_filter_None. right. intros x _. simpl. congruence.
  - destruct (f !! q) as [x|] eqn:Hq.
    + by apply map_lookup_filter_Some.
    + apply map_lookup_filter_None. by left.
Qed.

Lemma cleanup_temp_dir_outside w w' r q :
  cleanup_temp_dir E w = (w', r) → under (temp_dir E) q = false →
  fs w' !! q = fs w !! q.
Proof.
  intros Hc Hq. destruct (cleanup_temp_dir_cases w) as (w'' & Hc' & _ & _ & _ & Hfs).
  rewrite Hc in Hc'. injection Hc' as <- _.
  destruct Hfs as [->| ->]; [done|]. by rewrite lookup_rmtree, Hq.
Qed.

(** [convert_vsd_to_vdx] always returns a boolean. *)
Lemma convert_vsd_to_vdx_returns input_file output_file w :
  ∃ w' b, convert_vsd_to_vdx E input_file output_file w = (w', inr b).
Proof.
  unfold convert_vsd_to_vdx, try_finally, try_except.
  destruct (convert_vsd_body E input_file output_file w) as [w1 [e|b]].
  - unfold bind, logging, ret. simpl.
    match goal with |- context [cleanup_temp_dir E ?w0] =>
      destruct (cleanup_temp_dir_cases w0) as (w' & -> & _) end. eauto.
  - destruct (cleanup_temp_dir_cases w1) as (w' & -> & _). eauto.
Qed.

(** With the parser present, so does [convert_vsdx_to_vdx]. *)
Lemma convert_vsdx_to_vdx_returns input_file output_file w :
  VSDX_SUPPORT E = true →
  ∃ w' b, convert_vsdx_to_vdx E input_file output_file w = (w', inr b).
Proof.
  intros Hsup. unfold convert_vsdx_to_vdx. rewrite Hsup. simpl.
  unfold try_except, bind, vsdx_VisioFile.
  destruct (VisioFile E input_file (fs w)) as [e|d]; [simpl; eauto|].
  destruct (tree_write E _ _ _) as [w1 [e|[]]]; simpl; eauto.
Qed.

Lemma dispatch_returns input_file ext output_file vs vd w :
  (vs = true → VSDX_SUPPORT E = true) →
  ∃ w' b, dispatch E input_file ext output_file vs vd w = (w', inr b).
Proof.
  intros Hpre. unfold dispatch.
  destruct (str_in ext [".vsdx"; ".vsdm"]).
  { destruct vs; [by apply convert_vsdx_to_vdx_returns, Hpre|].
    unfold bind, logging, ret. simpl. eauto. }
  destruct (str_in ext [".vsd"; ".vdw"]).
  { destruct vd; [apply convert_vsd_to_vdx_returns|].
    unfold bind, logging, ret. simpl. eauto. }
  unfold bind, logging, ret. simpl. eauto.
Qed.

End OperationFacts.

(** ** Where the script puts its files *)

Section Layout.
Context (E : env).

Local Abbreviation root := (join_prefix (SCRIPT_DIR E)).

Lemma no_slash_not_absolute y : Str.has_char "/" y = false → Str.startswith "/" y = false.
Proof.
  destruct y as [|a y]; [done|]. simpl.
  destruct (decide (a = "/"%char)) as [->|]; [done|]. by rewrite decide_False.
Qed.

Lemma name_suffix_not_absolute n r :
  Str.has_char "/" n = false → Str.startswith "/" (n +:+ "_" +:+ r) = false.
Proof.
  destruct n as [|a n]; [done|]. rewrite str_app_cons. simpl.
  destruct (decide (a = "/"%char)) as [->|]; [done|]. by rewrite decide_False.
Qed.

Lemma OUTPUT_DIR_eq : OUTPUT_DIR E = root +:+ "output".
Proof. unfold OUTPUT_DIR. by rewrite join_relative. Qed.

Lemma temp_dir_eq : temp_dir E = root +:+ "logs/temp".
Proof.
  unfold temp_dir, LOGS_DIR. rewrite (join_relative (SCRIPT_DIR E)) by done.
  rewrite join_relative by done. unfold join_prefix at 1.
  rewrite decide_False by (by destruct root).
  rewrite endswith_char_app by done. simpl. by rewrite !str_app_assoc.
Qed.

(** A relative name joined to the output directory lies below it. *)
Lemma join_OUTPUT_DIR x :
  Str.startswith "/" x = false →
  Path.join (OUTPUT_DIR E) x = root +:+ "output/" +:+ x.
Proof.
  intros Hx. rewrite join_relative by done. unfold join_prefix.
  rewrite OUTPUT_DIR_eq. rewrite decide_False by (by destruct root).
  rewrite endswith_char_app by done. simpl. by rewrite !str_app_assoc.
Qed.

Lemma output_path_eq input_file :
  output_path E input_file =
  root +:+ "output/" +:+ (Path.splitext (Path.basename input_file)).1 +:+ ".vdx".
Proof.
  unfold output_path. apply join_OUTPUT_DIR, no_slash_not_absolute.
  rewrite has_char_app, splitext_fst_no_slash by apply basename_no_slash. done.
Qed.

Lemma candidate_output_path input_file k :
  ∃ rest, candidate (output_path E input_file) k = root +:+ "output/" +:+ rest.
Proof.
  unfold candidate.
  assert (Str.has_char "/" ((Path.splitext (Path.basename input_file)).1 +:+ ".vdx")
          = false) as Hfile.
  { rewrite has_char_app, splitext_fst_no_slash by apply basename_no_slash. done. }
  assert (output_path E input_file =
          OUTPUT_DIR E +:+ "/" +:+ (Path.splitext (Path.basename input_file)).1 +:+ ".vdx")
    as ->.
  { rewrite output_path_eq, OUTPUT_DIR_eq. by rewrite !str_app_assoc. }
  generalize dependent ((Path.splitext (Path.basename input_file)).1). intros base Hfile.
  rewrite split_dir_file; [|rewrite OUTPUT_DIR_eq; by destruct root
                           |rewrite OUTPUT_DIR_eq; by rewrite endswith_char_app
                           |done].
  pose proof (splitext_fst_no_slash _ Hfile) as Hname.
  destruct (Path.splitext _) as [name ext]. simpl in Hname.
  rewrite join_OUTPUT_DIR by (by apply name_suffix_not_absolute). eauto.
Qed.

Lemma below_output_not_in_scratch rest :
  under (temp_dir E) (root +:+ "output/" +:+ rest) = false.
Proof.
  unfold under. rewrite temp_dir_eq. apply orb_false_intro.
  - apply bool_decide_eq_false. intros H. by apply (inj (String.app root)) in H.
  - by rewrite str_app_assoc, startswith_app.
Qed.

(** The output file [process_file] chooses is never inside the scratch
    directory of the external backends. *)
Lemma output_outside_scratch (f : filesystem) input_file out :
  get_unique_filename f (output_path E input_file) = Some out →
  under (temp_dir E) out = false.
Proof.
  intros [->|[k ->]]%get_unique_filename_shape.
  - rewrite output_path_eq. apply below_output_not_in_scratch.
  - destruct (candidate_output_path input_file k) as [rest ->].
    apply below_output_not_in_scratch.
Qed.

(** The artifact the external backends are expected to leave lies inside
    the scratch directory. *)
Lemma artifact_in_scratch base_name :
  Str.has_char "/" base_name = false →
  under (temp_dir E) (Path.join (temp_dir E) (base_name +:+ ".vdx")) = true.
Proof.
  intros Hb. rewrite join_relative.
  2:{ apply no_slash_not_absolute. by rewrite has_char_app, Hb. }
  assert (join_prefix (temp_dir E) = temp_dir E +:+ "/") as ->.
  { unfold join_prefix.
    destruct (decide (temp_dir E = "")) as [H|_].
    { rewrite temp_dir_eq in H. by destruct root. }
    assert (Str.endswith_char "/" (temp_dir E) = false) as ->; [|done].
    by rewrite temp_dir_eq, endswith_char_app. }
  unfold under. rewrite startswith_app_l. apply orb_true_r.
Qed.

End Layout.

(** ** The conversion backends *)

Section BackendFacts.
Context (E : env).

(** A successful native conversion has written the tree built from the
    document the parser returned. *)
Lemma convert_vsdx_to_vdx_true input_file output_file w w' :
  convert_vsdx_to_vdx E input_file output_file w = (w', inr true) →
  ∃ d, VSDX_SUPPORT E = true ∧
       VisioFile E input_file (fs w) = inr d ∧
       fs w' = <[output_file := File (XmlDoc (build_vdx input_file d))]> (fs w) ∧
       trace w' = trace w ++ [OpenVisio input_file].
Proof.
  unfold convert_vsdx_to_vdx.
  destruct (VSDX_SUPPORT E); simpl; [|done].
  unfold try_except, bind, vsdx_VisioFile.
  destruct (VisioFile E input_file (fs w)) as [e|d]; [done|].
  unfold tree_write.
  match goal with |- context [fs_operation E ?op ?eff ?w0] =>
    destruct (fs_operation_cases E op eff w0) as [(f' & _ & Heff & ->)|[o ->]] end;
    [|done].
  simpl in *. intros [= <-]. exists d. simpl. do 2 (split; [done|]).
  split; [|done]. destruct (fs w !! output_file) as [[|c]|]; congruence.
Qed.

(** An attempt that reaches [return True] has launched the backend and has
    copied the artifact to the output file. *)
Lemma run_and_collect_Some argv base_name output_file w w' b :
  run_and_collect E argv base_name output_file w = (w', inr (Some b)) →
  b = true ∧
  (output_file ≠ Path.join (temp_dir E) (base_name +:+ ".vdx") →
   is_Some (fs w' !! output_file)).
Proof.
  unfold run_and_collect, bind, subprocess_run.
  destruct (spawn E argv (fs w)) as [[o|c] f1]; [done|].
  destruct (bool_decide (returncode c = 0%Z)); simpl; [|done].
  unfold os_path_exists. simpl.
  destruct (exists_in f1 _); [|done].
  unfold shutil_copy2.
  match goal with |- context [fs_operation E ?op ?eff ?w0] =>
    destruct (fs_operation_cases E op eff w0) as [(f2 & _ & Hcopy & ->)|[o ->]] end;
    [|done].
  unfold os_remove.
  match goal with |- context [fs_operation E ?op ?eff ?w0] =>
    destruct (fs_operation_cases E op eff w0) as [(f3 & _ & Hrm & ->)|[o ->]] end;
    [|done].
  intros [= <- <-]. split; [done|]. intros Hne. simpl in *.
  assert (is_Some (f2 !! output_file)) as Hout.
  { destruct (f1 !! Path.join _ _) as [[|c1]|]; [done| |done].
    destruct (decide _); [done|]. injection Hcopy as <-.
    destruct (f1 !! output_file) as [[|c2]|] eqn:Hdst.
    - rewrite lookup_insert. case_decide; [eauto|]. rewrite Hdst. eauto.
    - rewrite lookup_insert_eq. eauto.
    - rewrite lookup_insert_eq. eauto. }
  destruct (f2 !! Path.join _ _) as [[|c3]|]; [done| |done]. injection Hrm as <-.
  by rewrite lookup_delete_ne.
Qed.

Lemma attempt_unoconv_Some input_file base_name output_file w w' b :
  attempt_unoconv E input_file base_name output_file w = (w', inr (Some b)) →
  b = true ∧
  (output_file ≠ Path.join (temp_dir E) (base_name +:+ ".vdx") →
   is_Some (fs w' !! output_file)).
Proof.
  unfold attempt_unoconv, try_except, bind. simpl.
  destruct (run_and_collect E _ _ _ _) as [w1 [e|r]] eqn:Hrc.
  - destruct (is_subprocess_or_not_found e); simpl; done.
  - intros [= <- ->]. by apply run_and_collect_Some in Hrc.
Qed.

Lemma attempt_soffice_true input_file base_name output_file w w' :
  attempt_soffice E input_file base_name output_file w = (w', inr (Some true)) →
  output_file ≠ Path.join (temp_dir E) (base_name +:+ ".vdx") →
  is_Some (fs w' !! output_file).
Proof.
  unfold attempt_soffice, try_except, bind. simpl.
  destruct (run_and_collect E _ _ _ _) as [w1 [e|r]] eqn:Hrc.
  - destruct (is_subprocess_or_not_found e); simpl; done.
  - intros [= <- ->]. by apply run_and_collect_Some in Hrc as [_ ?].
Qed.

Lemma convert_vsd_body_true input_file output_file w w' :
  convert_vsd_body E input_file output_file w = (w', inr true) →
  output_file ≠ Path.join (temp_dir E)
                  ((Path.splitext (Path.basename input_file)).1 +:+ ".vdx") →
  is_Some (fs w' !! output_file).
Proof.
  intros Hbody Hne. unfold convert_vsd_body, bind in Hbody.
  destruct (os_makedirs E (temp_dir E) w) as [w0 [e|[]]]; [done|].
  destruct (attempt_unoconv E _ _ _ w0) as [w1 [e|[b|]]] eqn:H1; [done| |].
  - apply attempt_unoconv_Some in H1 as [-> Hout]. injection Hbody as <-. auto.
  - destruct (attempt_soffice E _ _ _ w1) as [w2 [e|[b|]]] eqn:H2; [done| |done].
    injection Hbody as <- ->. by apply attempt_soffice_true in H2.
Qed.

(** A successful external conversion leaves the output file in place,
    provided the output file is not inside the scratch directory. *)
Lemma convert_vsd_to_vdx_true input_file output_file w w' :
  convert_vsd_to_vdx E input_file output_file w = (w', inr true) →
  under (temp_dir E) output_file = false →
  is_Some (fs w' !! output_file).
Proof.
  intros Hconv Hout.
  assert (output_file ≠ Path.join (temp_dir E)
            ((Path.splitext (Path.basename input_file)).1 +:+ ".vdx")) as Hne.
  { intros ->. rewrite artifact_in_scratch in Hout; [done|].
    apply splitext_fst_no_slash, basename_no_slash. }
  unfold convert_vsd_to_vdx, try_finally, try_except in Hconv.
  destruct (convert_vsd_body E input_file output_file w) as [w1 [e|b]] eqn:Hbody.
  - unfold bind, logging, ret in Hconv. simpl in Hconv.
    match type of Hconv with context [cleanup_temp_dir E ?w0] =>
      destruct (cleanup_temp_dir_cases E w0) as (w2 & Hc & _) end.
    rewrite Hc in Hconv. done.
  - destruct (cleanup_temp_dir E w1) as [w2 [e|[]]] eqn:Hc; [done|].
    injection Hconv as <- ->.
    rewrite (cleanup_temp_dir_outside E _ _ _ _ Hc Hout).
    by apply (convert_vsd_body_true input_file output_file w).
Qed.

(** Whichever backend was chosen, a successful conversion has left the
    output file in place. *)
Lemma dispatch_true_output input_file ext output_file vs vd w w' :
  dispatch E input_file ext output_file vs vd w = (w', inr true) →
  under (temp_dir E) output_file = false →
  is_Some (fs w' !! output_file).
Proof.
  unfold dispatch. intros Hd Hout.
  destruct (str_in ext [".vsdx"; ".vsdm"]).
  { destruct vs; [|done].
    apply convert_vsdx_to_vdx_true in Hd as (d & _ & _ & -> & _).
    rewrite lookup_insert_eq. eauto. }
  destruct (str_in ext [".vsd"; ".vdw"]); [|done].
  destruct vd; [|done]. by apply (convert_vsd_to_vdx_true input_file output_file w).
Qed.

End BackendFacts.

(** ** The scratch directory and the call record *)

Section ScratchFacts.
Context (E : env).

Lemma fs_operation_trace op eff w w' r :
  fs_operation E op eff w = (w', r) →
  trace w' = trace w ∧ log w' = log w ∧ clock w' = clock w.
Proof.
  destruct (fs_operation_cases E op eff w) as [(f' & _ & _ & ->)|[o ->]];
    by intros [= <- _].
Qed.

(** After [os.makedirs] the scratch directory is a directory. *)
Lemma os_makedirs_ok d w w' :
  os_makedirs E d w = (w', inr tt) →
  fs w' !! d = Some Dir ∧ trace w' = trace w ∧ log w' = log w.
Proof.
  unfold os_makedirs. intros H.
  pose proof (fs_operation_trace _ _ _ _ _ H) as (? & ? & _).
  split; [|done]. revert H.
  match goal with |- context [fs_operation E ?op ?eff w] =>
    destruct (fs_operation_cases E op eff w) as [(f' & _ & Heff & ->)|[o ->]] end;
    [|done].
  intros [= <-]. simpl in *.
  destruct (fs w !! d) as [[|c]|] eqn:Hd; [| done |]; injection Heff as <-;
    [done|by rewrite lookup_insert_eq].
Qed.

(** Each backend attempt launches exactly one process. *)
Lemma run_and_collect_trace argv base_name output_file w w' r :
  run_and_collect E argv base_name output_file w = (w', r) →
  trace w' = trace w ++ [Spawn argv (fs w)].
Proof.
  unfold run_and_collect, bind, subprocess_run.
  destruct (spawn E argv (fs w)) as [[o|c] f1]; [by intros [= <- _]|].
  destruct (bool_decide (returncode c = 0%Z)); simpl; [|by intros [= <- _]].
  unfold os_path_exists. simpl.
  destruct (exists_in f1 _); [|by intros [= <- _]].
  destruct (shutil_copy2 E _ _ _) as [w1 [e|[]]] eqn:Hcopy;
    apply fs_operation_trace in Hcopy as (Ht1 & _); [by intros [= <- _]|].
  destruct (os_remove E _ w1) as [w2 [e|[]]] eqn:Hrm;
    apply fs_operation_trace in Hrm as (Ht2 & _); intros [= <- _]; simpl in *; congruence.
Qed.

Lemma attempt_unoconv_trace input_file base_name output_file w w' r :
  attempt_unoconv E input_file base_name output_file w = (w', r) →
  trace w' = trace w ++ [Spawn (unoconv_argv E input_file) (fs w)].
Proof.
  unfold attempt_unoconv, try_except, bind. simpl.
  destruct (run_and_collect E _ _ _ _) as [w1 [e|b]] eqn:Hrc;
    apply run_and_collect_trace in Hrc; simpl in Hrc.
  - destruct (is_subprocess_or_not_found e); simpl; by intros [= <- _].
  - by intros [= <- _].
Qed.

Lemma attempt_soffice_trace input_file base_name output_file w w' r :
  attempt_soffice E input_file base_name output_file w = (w', r) →
  trace w' = trace w ++ [Spawn (soffice_argv E input_file) (fs w)].
Proof.
  unfold attempt_soffice, try_except, bind. simpl.
  destruct (run_and_collect E _ _ _ _) as [w1 [e|b]] eqn:Hrc;
    apply run_and_collect_trace in Hrc; simpl in Hrc.
  - destruct (is_subprocess_or_not_found e); simpl; by intros [= <- _].
  - by intros [= <- _].
Qed.

(** The first process the outer [try] block launches, if it launches any,
    finds the scratch directory in place. *)
Lemma convert_vsd_body_trace input_file output_file w w' r :
  convert_vsd_body E input_file output_file w = (w', r) →
  ∃ evs, trace w' = trace w ++ evs ∧
    ∀ argv before rest, evs = Spawn argv before :: rest →
      before !! temp_dir E = Some Dir.
Proof.
  unfold convert_vsd_body, bind.
  destruct (os_makedirs E (temp_dir E) w) as [w0 [e|[]]] eqn:Hmk.
  { apply fs_operation_trace in Hmk as (Ht & _). intros [= <- _].
    exists []. by rewrite app_nil_r. }
  apply os_makedirs_ok in Hmk as (Hdir & Ht0 & _).
  destruct (attempt_unoconv E _ _ _ w0) as [w1 [e|r1]] eqn:H1;
    apply attempt_unoconv_trace in H1.
  { intros [= <- _]. eexists. rewrite H1, Ht0. split; [done|].
    by intros ??? [= _ <- _]. }
  assert (∀ w2 : world,
    (∃ evs', trace w2 = trace w1 ++ evs') →
    ∃ evs, trace w2 = trace w ++ evs ∧
      ∀ argv before rest, evs = Spawn argv before :: rest →
        before !! temp_dir E = Some Dir) as Hext.
  { intros w2 [evs' Hw2]. eexists. rewrite Hw2, H1, Ht0, <-(assoc_L (++)).
    split; [done|]. by intros ??? [= _ <- _]. }
  destruct r1 as [b|].
  { intros [= <- _]. apply Hext. exists []. by rewrite app_nil_r. }
  destruct (attempt_soffice E _ _ _ w1) as [w2 [e|r2]] eqn:H2;
    apply attempt_soffice_trace in H2.
  { intros [= <- _]. apply Hext. eauto. }
  destruct r2 as [b|]; simpl; intros [= <- _]; apply Hext; eauto.
Qed.

(** The [finally] clause: afterwards the scratch directory is gone, unless
    [shutil.rmtree] raised (which the clause swallows). *)
Lemma cleanup_temp_dir_removed w :
  ∃ w', cleanup_temp_dir E w = (w', inr tt) ∧ trace w' = trace w ∧
    (fs w' !! temp_dir E = None ∨
     ∃ e, shutil_rmtree E (temp_dir E) w' = (w', inl e)).
Proof.
  unfold cleanup_temp_dir, bind, os_path_exists.
  destruct (exists_in (fs w) (temp_dir E)) eqn:Hex.
  2:{ exists w. do 2 (split; [done|]). left. by apply exists_in_false. }
  unfold try_except, shutil_rmtree.
  match goal with |- context [fs_operation E ?op ?eff w] =>
    destruct (fs_operation_cases E op eff w) as [(f' & _ & Heff & Hop)|[o Hop]] end.
  - rewrite Hop. eexists. do 2 (split; [done|]). left. simpl.
    destruct (fs w !! temp_dir E) as [[|c]|]; [|done..]. injection Heff as <-.
    by rewrite lookup_rmtree, under_refl.
  - rewrite Hop. exists w. unfold ret. do 2 (split; [done|]). right. eauto.
Qed.

End ScratchFacts.

(** ** The fallback chain *)

Section ChainFacts.
Context (E : env) (input_file output_file : string).

Local Abbreviation base := ((Path.splitext (Path.basename input_file)).1).
Local Abbreviation art := (artifact E input_file).

Hypothesis output_not_artifact : output_file ≠ art.
Hypothesis copy_not_refused : ∀ f, os_fault E (Copy2 art output_file) f = None.
Hypothesis remove_not_refused : ∀ f, os_fault E (Remove art) f = None.

(** One backend run that ends in an anticipated way: the attempt returns
    [True] when the run delivers, and otherwise fails with an exception the
    enclosing [try] catches or falls through. *)
Lemma run_and_collect_anticipated argv w r f1 :
  spawn E argv (fs w) = (r, f1) →
  anticipated r f1 art output_file →
  ∃ w',
    (if delivers r f1 art
     then run_and_collect E argv base output_file w = (w', inr (Some true))
     else fs w' = f1 ∧
          (run_and_collect E argv base output_file w = (w', inr None) ∨
           ∃ e, is_subprocess_or_not_found e = true ∧
                run_and_collect E argv base output_file w = (w', inl e))).
Proof.
  intros Hspawn (Hlaunch & Hdir & Hout).
  unfold run_and_collect, bind, subprocess_run. rewrite Hspawn.
  fold art. unfold delivers.
  destruct r as [[m|m]|c]; [| by destruct (Hlaunch m) |].
  { eexists. split; [|right; eexists; split; [|reflexivity]]; done. }
  destruct (bool_decide (returncode c = 0%Z)); simpl.
  2:{ eexists. split; [|right; eexists; split; [|reflexivity]]; done. }
  unfold os_path_exists. simpl.
  destruct (exists_in f1 art) eqn:Hex.
  2:{ eexists. split; [|left; unfold ret; reflexivity]. reflexivity. }
  apply exists_in_true in Hex as [n Hn].
  destruct n as [|c1]; [done|].
  unfold shutil_copy2, os_remove, fs_operation. simpl.
  rewrite copy_not_refused, Hn.
  assert (match f1 !! output_file with
          | Some Dir => Path.join output_file (Path.basename art)
          | _ => output_file
          end = output_file) as ->.
  { by destruct (f1 !! output_file) as [[|c2]|]. }
  rewrite decide_False by (by intros <-). simpl.
  rewrite remove_not_refused, lookup_insert_ne, Hn by done. simpl. eauto.
Qed.

Lemma attempt_unoconv_anticipated w r f1 :
  spawn E (unoconv_argv E input_file) (fs w) = (r, f1) →
  anticipated r f1 art output_file →
  ∃ w',
    attempt_unoconv E input_file base output_file w
      = (w', inr (if delivers r f1 art then Some true else None)) ∧
    (delivers r f1 art = false → fs w' = f1).
Proof.
  intros Hspawn Hant. unfold attempt_unoconv, try_except, bind. simpl.
  match goal with |- context [run_and_collect E ?argv _ _ ?w0] =>
    destruct (run_and_collect_anticipated argv w0 r f1 Hspawn Hant) as [w' Hrc] end.
  destruct (delivers r f1 art).
  - rewrite Hrc. eexists. split; [reflexivity|done].
  - destruct Hrc as [Hfs [-> | (e & Hcls & ->)]].
    + eexists. split; [reflexivity|]. intros _. exact Hfs.
    + rewrite Hcls. simpl. eexists. split; [reflexivity|]. intros _. exact Hfs.
Qed.

Lemma attempt_soffice_anticipated w r f1 :
  spawn E (soffice_argv E input_file) (fs w) = (r, f1) →
  anticipated r f1 art output_file →
  ∃ w' o,
    attempt_soffice E input_file base output_file w = (w', inr o) ∧
    (o = Some true ∧ delivers r f1 art = true ∨
     o ≠ Some true ∧ delivers r f1 art = false).
Proof.
  intros Hspawn Hant. unfold attempt_soffice, try_except, bind. simpl.
  match goal with |- context [run_and_collect E ?argv _ _ ?w0] =>
    destruct (run_and_collect_anticipated argv w0 r f1 Hspawn Hant) as [w' Hrc] end.
  destruct (delivers r f1 art).
  - rewrite Hrc. eexists _, _. split; [reflexivity|]. by left.
  - destruct Hrc as [Hfs [-> | (e & Hcls & ->)]].
    + eexists _, _. split; [reflexivity|]. by right.
    + rewrite Hcls. simpl. eexists _, _. split; [reflexivity|]. by right.
Qed.

End ChainFacts.

(** * Main results *)

Lemma candidate_plain d n e k :
  d ≠ "" → Str.endswith_char "/" d = false →
  Str.has_char "/" n = false → Str.all_char "." n = false →
  Str.has_char "." e = false → Str.has_char "/" e = false →
  candidate (d +:+ "/" +:+ n +:+ "." +:+ e) k
  = d +:+ "/" +:+ n +:+ "_" +:+ pretty k +:+ "." +:+ e.
Proof.
  intros Hd Hend Hn Hdots He He'. unfold candidate.
  assert (Str.has_char "/" (n +:+ "." +:+ e) = false) as Hne.
  { rewrite has_char_app, Hn. exact He'. }
  rewrite (split_dir_file d _ Hd Hend Hne).
  rewrite (splitext_name_ext e n He Hdots Hn He').
  assert (n ≠ "") as Hn0 by (by intros ->).
  rewrite join_relative by (by apply startswith_slash_no).
  unfold join_prefix. rewrite decide_False by done. rewrite Hend.
  by rewrite str_app_assoc.
Qed.

(** C10.  The suffix-probing loop of [get_unique_filename] terminates: the
    filesystem being a finite set of paths that the probe does not modify,
    every number of iterations above the number of existing paths lets the
    loop return, always with the same path, and no file exists at the
    returned path. *)
Theorem get_unique_filename_terminates (f : filesystem) (filepath : string) :
  ∃ p, (∀ fuel, size f < fuel → get_unique_filename_fuel fuel f filepath = Some p) ∧
       get_unique_filename f filepath = Some p ∧
       f !! p = None.
Proof.
  destruct (get_unique_filename_total f filepath) as (p & Hp & Hnone).
  exists p. split; [|done]. intros fuel Hfuel.
  unfold get_unique_filename in Hp.
  rewrite get_unique_filename_fuel_unfold in *.
  destruct (negb (exists_in f filepath)); [done|].
  eapply probe_fuel_mono; [|exact Hp]. lia.
Qed.

Lemma get_unique_filename_terminates_witness :
  ∃ p, get_unique_filename_fuel 7 fs_two_foo "/app/output/foo.vdx" = Some p ∧
       fs_two_foo !! p = None.
Proof.
  destruct (get_unique_filename_terminates fs_two_foo "/app/output/foo.vdx")
    as (p & Hfuel & _ & Hnone).
  exists p. split; [|exact Hnone]. apply Hfuel. vm_compute. lia.
Defined.

(** C4.  [get_unique_filename] returns the path unchanged when nothing
    exists there; otherwise it returns the path with the smallest numeric
    suffix [_k], [k = 1, 2, ...], inserted before the extension, such that
    nothing exists at the suffixed path.  With [foo.vdx] present the answer is
    [foo_1.vdx], with both present it is [foo_2.vdx]; [process_file] probes
    the output path and the archive path separately. *)
Theorem get_unique_filename_smallest_suffix :
  (∀ (f : filesystem) filepath,
     f !! filepath = None → get_unique_filename f filepath = Some filepath) ∧
  (∀ (f : filesystem) filepath,
     is_Some (f !! filepath) →
     ∃ k, 1 ≤ k ∧ get_unique_filename f filepath = Some (candidate filepath k) ∧
          f !! candidate filepath k = None ∧
          ∀ j, 1 ≤ j < k → is_Some (f !! candidate filepath j)) ∧
  (∀ d n e k,
     d ≠ "" → Str.endswith_char "/" d = false →
     Str.has_char "/" n = false → Str.all_char "." n = false →
     Str.has_char "." e = false → Str.has_char "/" e = false →
     candidate (d +:+ "/" +:+ n +:+ "." +:+ e) k
     = d +:+ "/" +:+ n +:+ "_" +:+ pretty k +:+ "." +:+ e) ∧
  get_unique_filename fs_one_foo "/app/output/foo.vdx" = Some "/app/output/foo_1.vdx" ∧
  get_unique_filename fs_two_foo "/app/output/foo.vdx" = Some "/app/output/foo_2.vdx" ∧
  (∀ E input_file vs vd w w' r,
     process_file E input_file vs vd w = Some (w', inr r) → success r = true →
     ∃ out arch,
       get_unique_filename (fs w) (output_path E input_file) = Some out ∧
       get_unique_filename (fs w) (archive_path E input_file) = Some arch ∧
       output r = Some (Path.basename out) ∧ archive r = Some (Path.basename arch)).
Proof.
  split_and!.
  - intros f filepath Hnone. unfold get_unique_filename.
    destruct (get_unique_filename_fuel_spec (S (size f)) f filepath)
      as [[_ ?]|[[? Hsome] _]]; [lia|done|congruence].
  - intros f filepath Hsome. unfold get_unique_filename.
    destruct (get_unique_filename_fuel_spec (S (size f)) f filepath)
      as [[Hnone _]|[_ ?]]; [lia| |done].
    destruct Hsome; congruence.
  - apply candidate_plain.
  - by vm_compute.
  - by vm_compute.
  - intros E input_file vs vd w w' r Hpf Hsucc.
    destruct (process_file_returns E input_file vs vd w)
      as (out & arch & w'' & r' & Hout & Harch & Hpf' & t & Hr).
    rewrite Hpf in Hpf'. injection Hpf' as <- <-.
    exists out, arch. do 2 (split; [done|]).
    destruct Hr as [->|[reason ->]]; [done|]. by simpl in Hsucc.
Qed.

Lemma get_unique_filename_smallest_suffix_witness :
  get_unique_filename fs_one_foo "/app/output/bar.vdx" = Some "/app/output/bar.vdx" ∧
  (∃ k, 1 ≤ k ∧
     get_unique_filename fs_two_foo "/app/output/foo.vdx"
       = Some (candidate "/app/output/foo.vdx" k)) ∧
  candidate ("/app/output" +:+ "/" +:+ "foo" +:+ "." +:+ "vdx") 2
    = "/app/output" +:+ "/" +:+ "foo" +:+ "_" +:+ pretty 2 +:+ "." +:+ "vdx".
Proof.
  destruct get_unique_filename_smallest_suffix as (Hfree & Htaken & Hplain & _).
  split_and!.
  - apply Hfree. by vm_compute.
  - destruct (Htaken fs_two_foo "/app/output/foo.vdx") as (k & Hk & Hguf & _).
    + apply exists_in_true. vm_compute. reflexivity.
    + exists k. exact (conj Hk Hguf).
  - apply (Hplain "/app/output" "foo" "vdx" 2); [discriminate|reflexivity..].
Defined.

(** The loop of [main] adds exactly one record per file to [results]. *)
Lemma process_loop_length E files vs vd results w :
  ∃ w' results',
    process_loop E files vs vd results w = Some (w', inr (results ++ results')) ∧
    length results' = length files ∧
    filename <$> results' = Path.basename <$> files.
Proof.
  revert results w. induction files as [|input_file rest IH]; intros results w.
  - exists w, []. by rewrite app_nil_r.
  - simpl.
    destruct (process_file_returns E input_file vs vd w)
      as (out & arch & w1 & r & _ & _ & -> & t & Hr).
    destruct (IH (results ++ [r]) w1) as (w' & results' & -> & Hlen & Hnames).
    exists w', (r :: results'). rewrite <-(assoc_L (++)). simpl.
    split; [done|]. split; [simpl; by rewrite Hlen|].
    f_equal; [by destruct Hr as [->|[reason ->]]|exact Hnames].
Qed.

(** C1.  [process_file] returns a record, and every record it returns
    satisfies the invariant of the result: with the success flag set, output
    and archive names are present and there is no error description; with the
    flag cleared, output and archive names are absent and an error
    description is present. *)
Theorem process_file_result_invariant E input_file vs vd w :
  ∃ w' r,
    process_file E input_file vs vd w = Some (w', inr r) ∧
    (success r = true → is_Some (output r) ∧ is_Some (archive r) ∧ error r = None) ∧
    (success r = false → output r = None ∧ archive r = None ∧ is_Some (error r)).
Proof.
  destruct (process_file_returns E input_file vs vd w)
    as (out & arch & w' & r & _ & _ & Hpf & t & Hr).
  exists w', r. split; [exact Hpf|].
  destruct Hr as [->|[reason ->]]; simpl; split; intros; try done; eauto.
Qed.

Lemma process_file_result_invariant_witness :
  ∃ w' r,
    process_file bare_env "/app/input/b.vsd" true true (World fs_one_foo [] [] 0)
      = Some (w', inr r) ∧
    output r = None ∧ archive r = None ∧ is_Some (error r).
Proof.
  destruct (process_file_result_invariant bare_env "/app/input/b.vsd" true true
              (World fs_one_foo [] [] 0)) as (w' & r & Hpf & _ & Hfail).
  exists w', r. split; [exact Hpf|]. apply Hfail.
  vm_compute in Hpf. injection Hpf as _ <-. reflexivity.
Defined.



(** C3, as stated, fails: for [b.vsd] with no external converter available
    the error description of the result is the generic
    ["Conversion process failed"], which does not mention unavailability. *)
Lemma error_field_is_generic : ¬ error_field_mentions_unavailability.
Proof.
  intros Hclaim.
  pose (o := process_file scenario_env "/app/input/b.vsd" true false scenario_world).
  assert (process_file scenario_env "/app/input/b.vsd" true false scenario_world = o)
    as Hpf by reflexivity.
  vm_compute in (value of o). subst o.
  destruct (Hclaim _ _ _ _ _ _ _ (eq_refl : no_backend (ext_of "/app/input/b.vsd") true false = true) Hpf)
    as (msg & Hmsg & Hmentions).
  injection Hmsg as <-. vm_compute in Hmentions. discriminate Hmentions.
Qed.

Lemma str_in_cases2 x a b : str_in x [a; b] = true → x = a ∨ x = b.
Proof.
  unfold str_in. rewrite bool_decide_eq_true, !elem_of_cons, elem_of_nil. tauto.
Qed.

(** C3, amended.  For an input whose extension class has no available
    backend, [process_file] makes no conversion attempt (no process is
    launched, no document is opened, the filesystem is unchanged) and returns
    a failure record whose error description is the generic
    ["Conversion process failed"]; the unavailability of the backend is
    reported in the error message written to the log. *)
Theorem no_backend_fails_without_attempt E input_file vs vd w :
  no_backend (ext_of input_file) vs vd = true →
  ∃ w' t msg,
    process_file E input_file vs vd w =
      Some (w', inr (failure_record (Path.basename input_file) t
                       "Conversion process failed")) ∧
    fs w' = fs w ∧ trace w' = trace w ∧
    log w' = log w ++
      [(INFO, "Processing: " +:+ Path.basename input_file);
       (ERROR, msg);
       (ERROR, "❌ Conversion failed: " +:+ Path.basename input_file)] ∧
    mentions_unavailability msg = true.
Proof.
  intros Hno. rewrite process_file_unfold.
  destruct (get_unique_filename_total (fs w) (output_path E input_file)) as (o & Ho & _).
  destruct (get_unique_filename_total (fs w) (archive_path E input_file)) as (a & Ha & _).
  rewrite Ho, Ha. simpl. fold (ext_of input_file).
  unfold no_backend in Hno. unfold try_except, process_file_try, bind, dispatch.
  destruct (str_in (ext_of input_file) [".vsdx"; ".vsdm"]) eqn:Hx.
  - destruct vs.
    { simpl in Hno. apply str_in_cases2 in Hx as [Hx|Hx]; rewrite Hx in Hno;
        vm_compute in Hno; discriminate Hno. }
    simpl. eexists _, _, _. split; [reflexivity|]. do 2 (split; [reflexivity|]).
    split; [simpl; rewrite <-!(assoc_L (++)); reflexivity|].
    apply str_in_cases2 in Hx as [-> | ->]; vm_compute; reflexivity.
  - simpl in Hno. destruct (str_in (ext_of input_file) [".vsd"; ".vdw"]) eqn:Hd; [|done].
    destruct vd; [done|].
    simpl. eexists _, _, _. split; [reflexivity|]. do 2 (split; [reflexivity|]).
    split; [simpl; rewrite <-!(assoc_L (++)); reflexivity|].
    apply str_in_cases2 in Hd as [-> | ->]; vm_compute; reflexivity.
Qed.

Lemma no_backend_fails_without_attempt_witness :
  ∃ w' t msg,
    process_file scenario_env "/app/input/b.vsd" true false scenario_world =
      Some (w', inr (failure_record "b.vsd" t "Conversion process failed")) ∧
    fs w' = scenario_fs ∧ mentions_unavailability msg = true.
Proof.
  destruct (no_backend_fails_without_attempt scenario_env "/app/input/b.vsd" true false
              scenario_world) as (w' & t & msg & Hpf & Hfs & _ & _ & Hmsg).
  - vm_compute. reflexivity.
  - exists w', t, msg. split; [exact Hpf|]. split; [exact Hfs|exact Hmsg].
Defined.

(** C9.  When the [vsdx_support] flag is set only if the parsing library was
    imported (which is what [check_dependencies] returns), the branch of
    [convert_vsdx_to_vdx] that raises [ImportError] is not reached: the
    backend selection of [process_file] completes without raising, the [try]
    block of [process_file] never raises an [ImportError], and [process_file]
    returns a record. *)
Theorem import_error_unreachable E input_file vs vd w :
  (vs = true → VSDX_SUPPORT E = true) →
  (∀ w0 w1 vs' vd' missing,
     check_dependencies E w0 = (w1, inr (vs', vd', missing)) → vs' = VSDX_SUPPORT E) ∧
  (∀ ext out w0, ∃ w1 b, dispatch E input_file ext out vs vd w0 = (w1, inr b)) ∧
  (∀ fn ext out arch st w0,
     match process_file_try E input_file fn ext out arch st vs vd w0 with
     | (_, inl e) => exn_cls e ≠ ImportError
     | (_, inr _) => True
     end) ∧
  ∃ w' r, process_file E input_file vs vd w = Some (w', inr r).
Proof.
  intros Hpre. split_and!.
  - intros w0 w1 vs' vd' missing. unfold check_dependencies, bind.
    repeat (case_match; simplify_eq; try done).
    all: unfold ret; intros; by simplify_eq.
  - intros ext out w0. by apply dispatch_returns.
  - intros fn ext out arch st w0. unfold process_file_try, bind.
    destruct (dispatch_returns E input_file ext out vs vd w0 Hpre) as (w1 & b & ->).
    simpl. destruct b; [|done].
    unfold shutil_move.
    match goal with |- context [fs_operation E ?op ?eff ?w2] =>
      destruct (fs_operation_outcome E op eff w2) as [[f' ->]|[o ->]] end.
    + done.
    + apply exn_of_oserror_cls.
  - destruct (process_file_returns E input_file vs vd w)
      as (out & arch & w' & r & _ & _ & Hpf & _). eauto.
Qed.

Lemma import_error_unreachable_witness :
  ∃ w' r, process_file scenario_env "/app/input/a.vsdx" true false scenario_world
          = Some (w', inr r).
Proof.
  destruct (import_error_unreachable scenario_env "/app/input/a.vsdx" true false
              scenario_world) as (_ & _ & _ & H).
  - reflexivity.
  - exact H.
Defined.

(** Without the precondition the branch is reached: with the flag set and
    the library absent the [ImportError] arrives at the handler of
    [process_file] and becomes the error description. *)
Example import_error_without_precondition :
  ∃ w, process_file no_parser_env "/app/input/a.vsdx" true false scenario_world
       = Some (w, inr (failure_record "a.vsdx" 1
                         "vsdx library is required for processing .vsdx files")).
Proof. eexists. vm_compute. reflexivity. Qed.

(** C7.  When the conversion has succeeded and the move of the original into
    the archive fails, [process_file] still returns a record for the file; the
    record reports a processing error whose description is the message of the
    failed move, the output file exists in the output directory, and the
    original stays where it was. *)
Theorem archival_failure_is_reported E input_file vs vd w out arch w1 e :
  get_unique_filename (fs w) (output_path E input_file) = Some out →
  get_unique_filename (fs w) (archive_path E input_file) = Some arch →
  dispatch E input_file (ext_of input_file) out vs vd (try_start input_file w)
    = (w1, inr true) →
  shutil_move E input_file arch (tick w1) = (tick w1, inl e) →
  ∃ w',
    process_file E input_file vs vd w =
      Some (w', inr (failure_record (Path.basename input_file)
                       (time_time E (S (clock w1)) - time_time E (clock w))
                       (exn_msg e))) ∧
    fs w' = fs w1 ∧
    is_Some (fs w' !! out) ∧
    log w' = log w1 ++
      [(ERROR, "❌ Error processing " +:+ Path.basename input_file +:+ ": " +:+ exn_msg e);
       (DEBUG, format_exc E e)].
Proof.
  intros Hout Harch Hconv Hmove.
  rewrite process_file_unfold, Hout, Harch. simpl.
  fold (ext_of input_file).
  unfold try_except, process_file_try, bind. rewrite Hconv. simpl.
  fold (tick w1). rewrite Hmove.
  unfold process_file_except, bind. simpl.
  eexists. split; [reflexivity|]. simpl. split; [done|].
  split; [|by rewrite <-(assoc_L (++))].
  apply (dispatch_true_output E _ _ _ _ _ _ _ Hconv).
  by apply (output_outside_scratch E (fs w) input_file).
Qed.

Lemma archival_failure_is_reported_witness :
  ∃ w' t msg,
    process_file archive_denied_env "/app/input/a.vsdx" true false scenario_world =
      Some (w', inr (failure_record "a.vsdx" t msg)) ∧
    is_Some (fs w' !! "/app/output/a.vdx") ∧
    is_Some (fs w' !! "/app/input/a.vsdx").
Proof.
  pose (o := dispatch archive_denied_env "/app/input/a.vsdx" ".vsdx" "/app/output/a.vdx"
               true false (try_start "/app/input/a.vsdx" scenario_world)).
  assert (dispatch archive_denied_env "/app/input/a.vsdx" (ext_of "/app/input/a.vsdx")
            "/app/output/a.vdx" true false (try_start "/app/input/a.vsdx" scenario_world)
          = o) as Hconv by reflexivity.
  vm_compute in (value of o). subst o.
  destruct (archival_failure_is_reported archive_denied_env "/app/input/a.vsdx" true false
              scenario_world "/app/output/a.vdx" "/app/archive/a.vsdx" _
              (Exn OSError "[Errno 13] Permission denied")
              ltac:(vm_compute; reflexivity) ltac:(vm_compute; reflexivity) Hconv
              ltac:(vm_compute; reflexivity))
    as (w' & Hpf & Hfs & Hexists & _).
  eexists w', _, _. split; [exact Hpf|]. split; [exact Hexists|].
  rewrite Hfs. apply exists_in_true. vm_compute. reflexivity.
Defined.

(** C8, as stated, fails: when [shutil.rmtree] raises, the [finally] clause
    swallows the error and the scratch directory is still there after
    [convert_vsd_to_vdx] has returned. *)
Lemma scratch_left_behind : ¬ scratch_always_removed.
Proof.
  intros Hclaim.
  pose (o := convert_vsd_to_vdx rmtree_denied_env "/app/input/b.vsd" "/app/output/b.vdx"
               scenario_world).
  assert (convert_vsd_to_vdx rmtree_denied_env "/app/input/b.vsd" "/app/output/b.vdx"
            scenario_world = o) as Hconv by reflexivity.
  vm_compute in (value of o). subst o.
  apply Hclaim in Hconv. vm_compute in Hconv. discriminate Hconv.
Qed.

(** C8, amended.  [convert_vsd_to_vdx] always returns a boolean.  The
    scratch directory is created before the first backend is launched, and on
    every exit path the function attempts to remove it: after the return the
    scratch directory no longer exists, unless [shutil.rmtree] itself raised,
    in which case the error is ignored and the directory is left behind. *)
Theorem scratch_removed_unless_rmtree_fails E input_file output_file w :
  ∃ w' b evs,
    convert_vsd_to_vdx E input_file output_file w = (w', inr b) ∧
    trace w' = trace w ++ evs ∧
    (∀ argv before rest, evs = Spawn argv before :: rest →
       before !! temp_dir E = Some Dir) ∧
    (fs w' !! temp_dir E = None ∨
     ∃ e, shutil_rmtree E (temp_dir E) w' = (w', inl e)).
Proof.
  unfold convert_vsd_to_vdx, try_finally, try_except.
  destruct (convert_vsd_body E input_file output_file w) as [w1 [e|b]] eqn:Hbody;
    apply convert_vsd_body_trace in Hbody as (evs & Hevs & Hfirst).
  - unfold bind, logging, ret. simpl.
    match goal with |- context [cleanup_temp_dir E ?w0] =>
      destruct (cleanup_temp_dir_removed E w0) as (w' & -> & Ht & Hgone) end.
    exists w', false, evs. split; [done|]. split; [by rewrite Ht|]. done.
  - destruct (cleanup_temp_dir_removed E w1) as (w' & -> & Ht & Hgone).
    exists w', b, evs. split; [done|]. split; [by rewrite Ht|]. done.
Qed.

Lemma scratch_removed_unless_rmtree_fails_witness :
  ∃ w' b,
    convert_vsd_to_vdx scenario_env "/app/input/b.vsd" "/app/output/b.vdx" scenario_world
      = (w', inr b) ∧
    (fs w' !! temp_dir scenario_env = None ∨
     ∃ e, shutil_rmtree scenario_env (temp_dir scenario_env) w' = (w', inl e)).
Proof.
  destruct (scratch_removed_unless_rmtree_fails scenario_env "/app/input/b.vsd"
              "/app/output/b.vdx" scenario_world) as (w' & b & evs & Hconv & _ & _ & Hgone).
  exists w', b. split; [exact Hconv|exact Hgone].
Defined.




(** ** The native backend's document *)

Lemma filter_tag_imap {A} (g : nat → A → element) (t : string) (l : list A) :
  (∀ n x, tag_of (g n x) = t) →
  filter (λ c, tag_of c = t) (imap g l) = imap g l.
Proof.
  intros Htag. revert g Htag. induction l as [|x l IH]; intros g Htag; [done|].
  rewrite imap_cons, filter_cons_True by apply Htag. f_equal. apply IH.
  intros n y. apply Htag.
Qed.

Lemma page_elements_build_vdx input_file d :
  page_elements (build_vdx input_file d) = enumerate1 build_page (pages d).
Proof.
  unfold page_elements, build_vdx, find, findall. simpl.
  unfold enumerate1. by apply filter_tag_imap.
Qed.

Lemma shape_elements_build_page idx p :
  shape_elements (build_page idx p) = enumerate1 build_shape (page_shapes p).
Proof.
  unfold shape_elements, build_page, find, findall. simpl.
  unfold enumerate1. by apply filter_tag_imap.
Qed.

Lemma enumerate1_lookup {A B} (g : nat → A → B) l i :
  enumerate1 g l !! i = g (S i) <$> l !! i.
Proof. unfold enumerate1. by rewrite list_lookup_imap. Qed.

(** The fields of one emitted shape element. *)
Lemma build_shape_fields n s :
  attrib_get "ID" (attrib_of (build_shape n s)) = Some (pretty n) ∧
  (∀ nm, shape_name s = Some nm → nm ≠ "" →
     attrib_get "Name" (attrib_of (build_shape n s)) = Some nm) ∧
  (shape_name s = None ∨ shape_name s = Some "" →
     attrib_get "Name" (attrib_of (build_shape n s)) = Some ("Shape_" +:+ pretty n)) ∧
  (∃ props, find "ShapeProperties" (build_shape n s) = Some props ∧
     (child_text "PosX" props, child_text "PosY" props) =
       match shape_x s, shape_y s with
       | Some x, Some y => (Some x, Some y)
       | _, _ => (None, None)
       end ∧
     (child_text "Width" props, child_text "Height" props) =
       match shape_width s, shape_height s with
       | Some wd, Some ht => (Some wd, Some ht)
       | _, _ => (None, None)
       end).
Proof.
  split; [done|]. split; [|split].
  - intros nm Hnm Hne. unfold build_shape. rewrite Hnm. simpl.
    by rewrite decide_False.
  - intros [Hnm|Hnm]; unfold build_shape; rewrite Hnm; done.
  - eexists. split; [reflexivity|].
    destruct s as [nm [x|] [y|] [wd|] [ht|]]; done.
Qed.




(** * Further properties *)

(** ** Discovery *)

Lemma lower_char_fixes (c : ascii) a :
  (c = "/"%char ∨ c = "."%char) → (Str.lower_char a = c ↔ a = c).
Proof.
  intros [-> | ->]; destruct a as [[] [] [] [] [] [] [] []]; vm_compute;
    split; intros H; try discriminate H; reflexivity.
Qed.

Lemma lower_app s t : Str.lower (s +:+ t) = Str.lower s +:+ Str.lower t.
Proof. induction s as [|a s IH]; [done|]. rewrite !str_app_cons. simpl. by rewrite IH. Qed.

Lemma rsplit1_lower (c : ascii) s :
  (c = "/"%char ∨ c = "."%char) →
  Str.rsplit1 c (Str.lower s) =
  (λ ht : string * string, (Str.lower ht.1, Str.lower ht.2)) <$> Str.rsplit1 c s.
Proof.
  intros Hc. induction s as [|a s IH]; [done|]. simpl. rewrite IH.
  destruct (Str.rsplit1 c s) as [[h t]|]; [done|]. simpl.
  pose proof (lower_char_fixes c a Hc) as Hfix.
  destruct (decide (a = c)) as [Ha|Ha], (decide (Str.lower_char a = c)) as [Hl|Hl];
    try done; [by destruct Hl; apply Hfix|by destruct Ha; apply Hfix].
Qed.

Lemma all_char_dot_lower s : Str.all_char "." (Str.lower s) = Str.all_char "." s.
Proof.
  induction s as [|a s IH]; [done|]. simpl. rewrite IH.
  pose proof (lower_char_fixes "." a (or_intror eq_refl)) as Hfix.
  destruct (decide (a = "."%char)) as [Ha|Ha],
           (decide (Str.lower_char a = "."%char)) as [Hl|Hl];
    try done; [by destruct Hl; apply Hfix|by destruct Ha; apply Hfix].
Qed.

(** Lower-casing a path and taking its extension commute. *)
Lemma splitext_lower p :
  Path.splitext (Str.lower p) = (Str.lower (Path.splitext p).1, Str.lower (Path.splitext p).2).
Proof.
  unfold Path.splitext. rewrite (rsplit1_lower "/") by auto.
  destruct (Str.rsplit1 "/" p) as [[h t]|]; simpl.
  - rewrite (rsplit1_lower ".") by auto.
    destruct (Str.rsplit1 "." t) as [[stem e]|]; simpl; [|done].
    rewrite all_char_dot_lower. destruct (Str.all_char "." stem); [done|].
    simpl. by rewrite !lower_app.
  - rewrite (rsplit1_lower ".") by auto.
    destruct (Str.rsplit1 "." p) as [[stem e]|]; simpl; [|done].
    rewrite all_char_dot_lower. destruct (Str.all_char "." stem); [done|].
    simpl. by rewrite ?lower_app.
Qed.

(** The extension of a path is the extension of its last component. *)
Lemma splitext_snd_basename p :
  (Path.splitext p).2 = (Path.splitext (Path.basename p)).2.
Proof.
  pose proof (basename_no_slash p) as Hb.
  unfold Path.splitext at 2. rewrite (rsplit1_None _ _ Hb).
  unfold Path.splitext, Path.basename in *.
  destruct (Str.rsplit1 "/" p) as [[h t]|]; simpl.
  - destruct (Str.rsplit1 "." t) as [[stem e]|]; [|done].
    by destruct (Str.all_char "." stem).
  - destruct (Str.rsplit1 "." p) as [[stem e]|]; [|done].
    by destruct (Str.all_char "." stem).
Qed.

Lemma rsplit1_app_Some c q x h t :
  Str.rsplit1 c x = Some (h, t) → Str.rsplit1 c (q +:+ x) = Some (q +:+ h, t).
Proof.
  intros Hx. induction q as [|a q IH]; [done|]. rewrite !str_app_cons. simpl.
  by rewrite IH.
Qed.

Lemma rsplit1_None_inv c s : Str.rsplit1 c s = None → Str.has_char c s = false.
Proof.
  induction s as [|a s IH]; [done|]. simpl.
  destruct (Str.rsplit1 c s) as [[h t]|]; [done|].
  destruct (decide (a = c)); [done|]. auto.
Qed.

Lemma endswith_char_inv c d :
  Str.endswith_char c d = true → ∃ q, d = q +:+ String c "".
Proof.
  induction d as [|a d IH]; [done|]. simpl. destruct d as [|b d].
  - intros ->%bool_decide_eq_true. by exists "".
  - intros [q ->]%IH. exists (String a q). by rewrite str_app_cons.
Qed.

(** Joining a directory in front of a name does not change its last
    component. *)
Lemma basename_join d x : Path.basename (Path.join d x) = Path.basename x.
Proof.
  unfold Path.join. destruct (Str.startswith "/" x) eqn:Habs; [done|].
  destruct (decide (d = "")); [done|].
  assert (∀ q, Path.basename (q +:+ String "/" x) = Path.basename x) as Hslash.
  { intros q. unfold Path.basename.
    destruct (Str.rsplit1 "/" x) as [[h t]|] eqn:Hx.
    - by rewrite (rsplit1_app_Some _ q (String "/" x) (String "/" h) t)
        by (simpl; by rewrite Hx).
    - by rewrite rsplit1_app by (by apply rsplit1_None_inv). }
  destruct (Str.endswith_char "/" d) eqn:Hend.
  - apply endswith_char_inv in Hend as [q ->]. rewrite str_app_assoc. apply Hslash.
  - apply Hslash.
Qed.

(** The extension [process_file] dispatches on is the one [get_visio_files]
    has tested. *)
Lemma ext_of_join d x : ext_of (Path.join d x) = (Path.splitext (Str.lower x)).2.
Proof.
  unfold ext_of. rewrite basename_join, <-splitext_snd_basename.
  by rewrite splitext_lower.
Qed.

Lemma omap_sublist_fmap {A B} (f : A → option B) (g : A → B) l :
  (∀ x y, f x = Some y → y = g x) → sublist (omap f l) (g <$> l).
Proof.
  intros Hfg. induction l as [|x l IH]; [constructor|]. simpl.
  destruct (f x) as [y|] eqn:Hx.
  - rewrite (Hfg x y Hx). by constructor.
  - by constructor.
Qed.

(** Where a discovered path comes from. *)
Lemma get_visio_files_elem E directory w w' files p :
  get_visio_files E directory w = (w', inr files) → p ∈ files →
  ∃ filename, p = Path.join directory filename ∧ isfile_in (fs w) p = true ∧
    str_in (Path.splitext (Str.lower filename)).2 SUPPORTED_EXTENSIONS = true.
Proof.
  unfold get_visio_files. destruct (os_listdir E directory (fs w)) as [o|names]; [done|].
  intros [= _ <-]. rewrite list_elem_of_omap. intros (filename & Hin & Hp).
  exists filename. simpl in Hp. destruct (isfile_in _ _) eqn:Hfile; [|done].
  destruct (str_in _ _) eqn:Hext; [|done]. injection Hp as <-. done.
Qed.

(** X1.  [get_visio_files] returns, in listing order, the paths
    [directory/filename] of exactly those listed names that are regular files
    and whose extension, compared case-insensitively, is one of the four
    supported ones; it changes nothing, and an error of the listing is
    raised to the caller. *)
Theorem get_visio_files_selects E directory w :
  match os_listdir E directory (fs w) with
  | inl o => get_visio_files E directory w = (w, inl (exn_of_oserror o))
  | inr names =>
      ∃ files,
        get_visio_files E directory w = (w, inr files) ∧
        sublist files (Path.join directory <$> names) ∧
        ∀ p, p ∈ files ↔
          ∃ filename, filename ∈ names ∧ p = Path.join directory filename ∧
            isfile_in (fs w) p = true ∧
            str_in (Path.splitext (Str.lower filename)).2 SUPPORTED_EXTENSIONS = true
  end.
Proof.
  unfold get_visio_files. destruct (os_listdir E directory (fs w)) as [o|names]; [done|].
  eexists. split; [reflexivity|]. split.
  - apply omap_sublist_fmap. intros x y. simpl.
    destruct (isfile_in _ _); [|done]. destruct (str_in _ _); [|done]. congruence.
  - intros p. rewrite list_elem_of_omap. split.
    + intros (filename & Hin & Hp). exists filename. split; [done|].
      simpl in Hp. destruct (isfile_in _ _) eqn:Hfile; [|done].
      destruct (str_in _ _) eqn:Hext; [|done]. injection Hp as <-. done.
    + intros (filename & Hin & -> & Hfile & Hext). exists filename. split; [done|].
      simpl. by rewrite Hfile, Hext.
Qed.

(** X2.  Every file [get_visio_files] hands to the pipeline is a regular
    file whose extension, as [process_file] computes it, belongs to one of
    the two backend families: for discovered files the branch "unsupported
    file extension" of [process_file] is never taken. *)
Theorem discovered_files_have_a_family E directory w w' files p :
  get_visio_files E directory w = (w', inr files) →
  p ∈ files →
  isfile_in (fs w) p = true ∧
  (str_in (ext_of p) [".vsdx"; ".vsdm"] = true ∨
   str_in (ext_of p) [".vsd"; ".vdw"] = true).
Proof.
  intros Hget Hp.
  destruct (get_visio_files_elem E _ _ _ _ _ Hget Hp) as (filename & -> & Hfile & Hext).
  split; [done|]. rewrite ext_of_join.
  unfold str_in, SUPPORTED_EXTENSIONS in Hext.
  rewrite bool_decide_eq_true, !elem_of_cons, elem_of_nil in Hext.
  destruct Hext as [->|[->|[->|[->|[]]]]]; vm_compute; auto.
Qed.

Lemma discovered_files_have_a_family_witness :
  isfile_in scenario_fs "/app/input/b.vsd" = true ∧
  (str_in (ext_of "/app/input/b.vsd") [".vsdx"; ".vsdm"] = true ∨
   str_in (ext_of "/app/input/b.vsd") [".vsd"; ".vdw"] = true).
Proof.
  apply (discovered_files_have_a_family scenario_env "/app/input" scenario_world
           scenario_world ["/app/input/a.vsdx"; "/app/input/b.vsd"]).
  - vm_compute. reflexivity.
  - apply list_elem_of_further, list_elem_of_here.
Defined.


(** ** [process_file]: the defensive branch, names, success *)

(** X3.  An input whose extension belongs to neither backend family is
    refused without any attempt: [process_file] launches nothing, opens
    nothing, leaves the filesystem as it is, logs the unsupported extension
    and returns the generic failure record. *)
Theorem unsupported_extension_is_refused E input_file vs vd w :
  str_in (ext_of input_file) [".vsdx"; ".vsdm"] = false →
  str_in (ext_of input_file) [".vsd"; ".vdw"] = false →
  ∃ w' t,
    process_file E input_file vs vd w =
      Some (w', inr (failure_record (Path.basename input_file) t
                       "Conversion process failed")) ∧
    fs w' = fs w ∧ trace w' = trace w ∧
    log w' = log w ++
      [(INFO, "Processing: " +:+ Path.basename input_file);
       (ERROR, "Unsupported file extension: " +:+ ext_of input_file);
       (ERROR, "❌ Conversion failed: " +:+ Path.basename input_file)].
Proof.
  intros Hx Hd. rewrite process_file_unfold.
  destruct (get_unique_filename_total (fs w) (output_path E input_file)) as (o & Ho & _).
  destruct (get_unique_filename_total (fs w) (archive_path E input_file)) as (a & Ha & _).
  rewrite Ho, Ha. simpl. fold (ext_of input_file).
  unfold try_except, process_file_try, bind, dispatch. rewrite Hx, Hd. simpl.
  eexists _, _. split; [reflexivity|]. do 2 (split; [reflexivity|]).
  simpl. rewrite <-!(assoc_L (++)). reflexivity.
Qed.

Lemma unsupported_extension_is_refused_witness :
  ∃ w' t,
    process_file scenario_env "/app/input/notes.txt" true true scenario_world =
      Some (w', inr (failure_record "notes.txt" t "Conversion process failed")) ∧
    fs w' = scenario_fs.
Proof.
  destruct (unsupported_extension_is_refused scenario_env "/app/input/notes.txt" true true
              scenario_world) as (w' & t & Hpf & Hfs & _).
  - vm_compute. reflexivity.
  - vm_compute. reflexivity.
  - exists w', t. split; [exact Hpf|exact Hfs].
Defined.

Lemma ARCHIVE_DIR_eq E : ARCHIVE_DIR E = join_prefix (SCRIPT_DIR E) +:+ "archive".
Proof. unfold ARCHIVE_DIR. by rewrite join_relative. Qed.

Lemma ARCHIVE_DIR_shape E :
  ARCHIVE_DIR E ≠ "" ∧ Str.endswith_char "/" (ARCHIVE_DIR E) = false.
Proof.
  rewrite ARCHIVE_DIR_eq. split.
  - by destruct (join_prefix (SCRIPT_DIR E)).
  - by rewrite endswith_char_app.
Qed.

Lemma OUTPUT_DIR_shape E :
  OUTPUT_DIR E ≠ "" ∧ Str.endswith_char "/" (OUTPUT_DIR E) = false.
Proof.
  rewrite OUTPUT_DIR_eq. split.
  - by destruct (join_prefix (SCRIPT_DIR E)).
  - by rewrite endswith_char_app.
Qed.

(** Joining a relative name to a directory without trailing slash. *)
Lemma join_dir_name d x :
  d ≠ "" → Str.endswith_char "/" d = false → Str.startswith "/" x = false →
  Path.join d x = d +:+ "/" +:+ x.
Proof.
  intros Hd Hend Hx. rewrite join_relative by done. unfold join_prefix.
  rewrite decide_False by done. rewrite Hend. by rewrite str_app_assoc.
Qed.

(** A unique name derived from [d/n.e] is [d/n.e] itself or [d/n_k.e]. *)
Lemma get_unique_filename_plain (f : filesystem) d n e p :
  d ≠ "" → Str.endswith_char "/" d = false →
  Str.has_char "/" n = false → Str.all_char "." n = false →
  Str.has_char "." e = false → Str.has_char "/" e = false →
  get_unique_filename f (d +:+ "/" +:+ n +:+ "." +:+ e) = Some p →
  p = d +:+ "/" +:+ n +:+ "." +:+ e ∨
  ∃ k, 1 ≤ k ∧ p = d +:+ "/" +:+ n +:+ "_" +:+ pretty k +:+ "." +:+ e.
Proof.
  intros Hd Hend Hn Hdots He He' Hp. unfold get_unique_filename in Hp.
  destruct (get_unique_filename_fuel_spec (S (size f)) f (d +:+ "/" +:+ n +:+ "." +:+ e))
    as [[_ H]|[_ (k & Hk & H & _)]]; [lia|..]; rewrite H in Hp; injection Hp as <-.
  - by left.
  - right. exists k. split; [done|]. by apply candidate_plain.
Qed.

(** X4.  For an input file that has an extension, the output file is
    [<base>.vdx] in the output directory, or [<base>_<k>.vdx] there for some
    [k >= 1]; the archive file is the original name in the archive directory,
    or the original name with [_<k>] inserted before its extension.  Whatever
    exists already, the output keeps the extension [.vdx] and the archived
    file keeps the extension of the original. *)
Theorem output_and_archive_names E (f : filesystem) input_file stem e out arch :
  Path.splitext (Path.basename input_file) = (stem, "." +:+ e) →
  get_unique_filename f (output_path E input_file) = Some out →
  get_unique_filename f (archive_path E input_file) = Some arch →
  (out = OUTPUT_DIR E +:+ "/" +:+ stem +:+ ".vdx" ∨
   ∃ k, 1 ≤ k ∧ out = OUTPUT_DIR E +:+ "/" +:+ stem +:+ "_" +:+ pretty k +:+ ".vdx") ∧
  (arch = ARCHIVE_DIR E +:+ "/" +:+ stem +:+ "." +:+ e ∨
   ∃ k, 1 ≤ k ∧ arch = ARCHIVE_DIR E +:+ "/" +:+ stem +:+ "_" +:+ pretty k +:+ "." +:+ e).
Proof.
  intros Hsplit Hout Harch.
  pose proof (basename_no_slash input_file) as Hb.
  destruct (splitext_file _ Hb) as [Hno|(stem' & e' & Hname & Hsplit' & Hdots & He)];
    [rewrite Hsplit in Hno; injection Hno as _ Hno; discriminate Hno|].
  rewrite Hsplit in Hsplit'. injection Hsplit' as <- Heq.
  change (e = e') in Heq. subst e'.
  assert (Str.has_char "/" stem = false ∧ Str.has_char "/" e = false) as [Hs He'].
  { rewrite Hname, has_char_app in Hb. apply orb_false_elim in Hb as [? Hb]. done. }
  destruct (OUTPUT_DIR_shape E) as [Ho1 Ho2]. destruct (ARCHIVE_DIR_shape E) as [Ha1 Ha2].
  split.
  - unfold output_path in Hout. rewrite Hsplit in Hout. simpl in Hout.
    rewrite join_dir_name in Hout; [|done|done|].
    2:{ apply no_slash_not_absolute. by rewrite has_char_app, Hs. }
    by apply (get_unique_filename_plain f _ stem "vdx") in Hout.
  - unfold archive_path in Harch. rewrite Hname in Harch.
    rewrite join_dir_name in Harch; [|done|done|].
    2:{ apply no_slash_not_absolute. rewrite has_char_app, Hs. done. }
    by apply (get_unique_filename_plain f _ stem e) in Harch.
Qed.

Lemma output_and_archive_names_witness :
  ("/app/output/foo_2.vdx" = OUTPUT_DIR scenario_env +:+ "/" +:+ "foo" +:+ ".vdx" ∨
   ∃ k, 1 ≤ k ∧
     "/app/output/foo_2.vdx"
       = OUTPUT_DIR scenario_env +:+ "/" +:+ "foo" +:+ "_" +:+ pretty k +:+ ".vdx") ∧
  ("/app/archive/foo.VSD" = ARCHIVE_DIR scenario_env +:+ "/" +:+ "foo" +:+ "." +:+ "VSD" ∨
   ∃ k, 1 ≤ k ∧
     "/app/archive/foo.VSD"
       = ARCHIVE_DIR scenario_env +:+ "/" +:+ "foo" +:+ "_" +:+ pretty k +:+ "." +:+ "VSD").
Proof.
  apply (output_and_archive_names scenario_env fs_two_foo "/app/input/foo.VSD");
    vm_compute; reflexivity.
Defined.


(** The [try] block of [process_file] returns the success record only after
    the backend has answered true and the move has gone through. *)
Lemma process_file_try_success E input_file fn ext out arch st vs vd w w' r :
  process_file_try E input_file fn ext out arch st vs vd w = (w', inr r) →
  success r = true →
  ∃ w1 f',
    dispatch E input_file ext out vs vd w = (w1, inr true) ∧
    shutil_move E input_file arch (tick w1) = (set_fs f' (tick w1), inr tt) ∧
    fs w' = f' ∧
    r = success_record fn out arch (time_time E (clock w1) - st).
Proof.
  unfold process_file_try, bind.
  destruct (dispatch E input_file ext out vs vd w) as [w1 [e|[|]]]; [done| |].
  - simpl. fold (tick w1). unfold shutil_move.
    match goal with |- context [fs_operation E ?op ?eff ?w2] =>
      destruct (fs_operation_outcome E op eff w2) as [[f' Hmv]|[o Hmv]];
      rewrite Hmv end; [|done].
    simpl. intros [= <- <-] _. exists w1, f'. done.
  - simpl. by intros [= <- <-].
Qed.

(** What a successful [shutil.move] of an existing source does. *)
Lemma shutil_move_success E src dst w f' :
  shutil_move E src dst w = (set_fs f' w, inr tt) →
  ∃ n real_dst,
    fs w !! src = Some n ∧
    (real_dst = dst ∨ fs w !! dst = Some Dir ∧ fs w !! real_dst = None) ∧
    f' = <[real_dst := n]> (delete src (fs w)).
Proof.
  unfold shutil_move.
  match goal with |- context [fs_operation E ?op ?eff w] =>
    destruct (fs_operation_cases E op eff w) as [(f'' & _ & Heff & ->)|[o ->]] end;
    [|done].
  intros Hf. assert (f'' = f') as ->.
  { apply (f_equal (λ x, fs x.1)) in Hf. exact Hf. }
  clear Hf.
  simpl in Heff. destruct (fs w !! src) as [n|]; [|done]. exists n.
  destruct (fs w !! dst) as [[|c]|] eqn:Hdst.
  - destruct (exists_in (fs w) _) eqn:Hex; [done|]. injection Heff as <-.
    eexists. split; [done|]. split; [|done]. right. split; [done|].
    by apply exists_in_false.
  - injection Heff as <-. exists dst. auto.
  - injection Heff as <-. exists dst. auto.
Qed.

(** X5.  When [process_file] reports success for an input that existed, the
    original is no longer at its input path, something exists at the archive
    path chosen for it, and the output file exists at the output path chosen
    for it. *)
Theorem success_moves_original E input_file vs vd w w' r :
  is_Some (fs w !! input_file) →
  process_file E input_file vs vd w = Some (w', inr r) →
  success r = true →
  ∃ out arch,
    get_unique_filename (fs w) (output_path E input_file) = Some out ∧
    get_unique_filename (fs w) (archive_path E input_file) = Some arch ∧
    output r = Some (Path.basename out) ∧
    archive r = Some (Path.basename arch) ∧
    fs w' !! input_file = None ∧
    is_Some (fs w' !! out) ∧
    is_Some (fs w' !! arch).
Proof.
  intros Hin Hpf Hsucc. rewrite process_file_unfold in Hpf.
  destruct (get_unique_filename_total (fs w) (output_path E input_file))
    as (out & Ho & Hofree).
  destruct (get_unique_filename_total (fs w) (archive_path E input_file))
    as (arch & Ha & Hafree).
  rewrite Ho, Ha in Hpf. simpl in Hpf. injection Hpf as Hpf.
  exists out, arch. do 2 (split; [done|]).
  unfold try_except in Hpf.
  destruct (process_file_try E _ _ _ _ _ _ _ _ _) as [w2 [e|r']] eqn:Htry.
  { destruct (process_file_except_result E (Path.basename input_file)
                (time_time E (clock w)) e w2) as [w3 Hex].
    rewrite Hex in Hpf. injection Hpf as _ <-. done. }
  injection Hpf as -> ->.
  apply process_file_try_success in Htry as (w1 & f' & Hconv & Hmove & Hfs & ->); [|done].
  do 2 (split; [done|]).
  pose proof (dispatch_true_output E _ _ _ _ _ _ _ Hconv
                (output_outside_scratch E _ _ _ Ho)) as Hout.
  apply shutil_move_success in Hmove as (n & real & Hsrc & Hreal & ->).
  simpl in Hsrc, Hreal. rewrite Hfs. simpl.
  assert (out ≠ input_file) as Hne1 by (intros ->; destruct Hin; congruence).
  assert (arch ≠ input_file) as Hne2 by (intros ->; destruct Hin; congruence).
  assert (real ≠ input_file) as Hne3.
  { destruct Hreal as [->|[_ Hnone]]; [done|]. intros ->. congruence. }
  split; [by rewrite lookup_insert_ne, lookup_delete_eq|].
  split.
  - rewrite lookup_insert. case_decide; [eauto|]. by rewrite lookup_delete_ne.
  - rewrite lookup_insert. case_decide; [eauto|].
    destruct Hreal as [->|[Hdir _]]; [done|]. rewrite lookup_delete_ne by done.
    rewrite Hdir. eauto.
Qed.

Lemma success_moves_original_witness :
  ∃ w' r,
    process_file scenario_env "/app/input/a.vsdx" true false scenario_world
      = Some (w', inr r) ∧
    fs w' !! "/app/input/a.vsdx" = None ∧
    is_Some (fs w' !! "/app/output/a.vdx") ∧
    is_Some (fs w' !! "/app/archive/a.vsdx").
Proof.
  pose (o := process_file scenario_env "/app/input/a.vsdx" true false scenario_world).
  assert (process_file scenario_env "/app/input/a.vsdx" true false scenario_world = o)
    as Hpf by reflexivity.
  vm_compute in (value of o). subst o.
  edestruct (success_moves_original scenario_env "/app/input/a.vsdx" true false
               scenario_world) as (out & arch & Ho & Ha & _ & _ & Hgone & Hout & Harch).
  - apply exists_in_true. vm_compute. reflexivity.
  - exact Hpf.
  - reflexivity.
  - eexists _, _. split; [exact Hpf|]. split; [exact Hgone|].
    vm_compute in Ho. injection Ho as <-. vm_compute in Ha. injection Ha as <-.
    split; [exact Hout|exact Harch].
Defined.


(** ** The clock and the log *)

Section Steady.
Context (E : env).

Lemma steady_ret {A} (a : A) : steady (ret a).
Proof. intros w w' r [= <- _]. split; [done|]. exists []. by rewrite app_nil_r. Qed.

Lemma steady_raise {A} e : steady (raise (A:=A) e).
Proof. intros w w' r [= <- _]. split; [done|]. exists []. by rewrite app_nil_r. Qed.

Lemma steady_bind {A B} (m : M A) (k : A → M B) :
  steady m → (∀ a, steady (k a)) → steady (bind m k).
Proof.
  intros Hm Hk w w' r. unfold bind.
  destruct (m w) as [w1 [e|a]] eqn:Hmw.
  - intros [= <- _]. by apply (Hm _ _ _ Hmw).
  - intros Hka. destruct (Hm _ _ _ Hmw) as [Hc [l Hl]].
    destruct (Hk a _ _ _ Hka) as [Hc' [l' Hl']].
    split; [congruence|]. exists (l ++ l'). by rewrite Hl', Hl, <-(assoc_L (++)).
Qed.

Lemma steady_try_except {A} (m : M A) (h : exn → M A) :
  steady m → (∀ e, steady (h e)) → steady (try_except m h).
Proof.
  intros Hm Hh w w' r. unfold try_except.
  destruct (m w) as [w1 [e|a]] eqn:Hmw.
  - intros Hhe. destruct (Hm _ _ _ Hmw) as [Hc [l Hl]].
    destruct (Hh e _ _ _ Hhe) as [Hc' [l' Hl']].
    split; [congruence|]. exists (l ++ l'). by rewrite Hl', Hl, <-(assoc_L (++)).
  - intros [= <- _]. by apply (Hm _ _ _ Hmw).
Qed.

Lemma steady_try_finally {A} (m : M A) (c : M unit) :
  steady m → steady c → steady (try_finally m c).
Proof.
  intros Hm Hc w w' r. unfold try_finally.
  destruct (m w) as [w1 r1] eqn:Hmw. destruct (c w1) as [w2 [e|u]] eqn:Hcw;
    intros [= <- _]; destruct (Hm _ _ _ Hmw) as [H1 [l Hl]];
    destruct (Hc _ _ _ Hcw) as [H2 [l' Hl']];
    (split; [congruence|]); exists (l ++ l'); by rewrite Hl', Hl, <-(assoc_L (++)).
Qed.

Lemma steady_logging l msg : steady (logging l msg).
Proof. intros w w' r [= <- _]. simpl. eauto. Qed.

Lemma steady_fs_operation op eff : steady (fs_operation E op eff).
Proof.
  intros w w' r H. apply fs_operation_trace in H as (_ & Hl & Hc).
  split; [done|]. exists []. by rewrite app_nil_r.
Qed.

Lemma steady_os_path_exists p : steady (os_path_exists p).
Proof. intros w w' r [= <- _]. split; [done|]. exists []. by rewrite app_nil_r. Qed.

Lemma steady_subprocess_run argv check : steady (subprocess_run E argv check).
Proof.
  intros w w' r. unfold subprocess_run.
  destruct (spawn E argv (fs w)) as [[o|c] f1].
  - intros [= <- _]. split; [done|]. exists []. by rewrite app_nil_r.
  - destruct (_ && _); intros [= <- _]; (split; [done|]); exists [];
      by rewrite app_nil_r.
Qed.

Lemma steady_vsdx_VisioFile p : steady (vsdx_VisioFile E p).
Proof. intros w w' r [= <- _]. split; [done|]. exists []. by rewrite app_nil_r. Qed.

Lemma steady_convert_vsdx_to_vdx i o : steady (convert_vsdx_to_vdx E i o).
Proof.
  unfold convert_vsdx_to_vdx. destruct (negb _); [apply steady_raise|].
  apply steady_try_except.
  - apply steady_bind; [apply steady_vsdx_VisioFile|]. intros d.
    apply steady_bind; [apply steady_fs_operation|]. intros _. apply steady_ret.
  - intros e. apply steady_bind; [apply steady_logging|]. intros _.
    apply steady_bind; [apply steady_logging|]. intros _. apply steady_ret.
Qed.

Lemma steady_run_and_collect argv b o : steady (run_and_collect E argv b o).
Proof.
  unfold run_and_collect.
  apply steady_bind; [apply steady_subprocess_run|]. intros _.
  apply steady_bind; [apply steady_os_path_exists|]. intros [|]; [|apply steady_ret].
  apply steady_bind; [apply steady_fs_operation|]. intros _.
  apply steady_bind; [apply steady_fs_operation|]. intros _. apply steady_ret.
Qed.

Lemma steady_attempt_unoconv i b o : steady (attempt_unoconv E i b o).
Proof.
  unfold attempt_unoconv. apply steady_try_except.
  - apply steady_bind; [apply steady_logging|]. intros _. apply steady_run_and_collect.
  - intros e. destruct (is_subprocess_or_not_found e); [|apply steady_raise].
    apply steady_bind; [apply steady_logging|]. intros _. apply steady_ret.
Qed.

Lemma steady_attempt_soffice i b o : steady (attempt_soffice E i b o).
Proof.
  unfold attempt_soffice. apply steady_try_except.
  - apply steady_bind; [apply steady_logging|]. intros _. apply steady_run_and_collect.
  - intros e. destruct (is_subprocess_or_not_found e); [|apply steady_raise].
    apply steady_bind; [apply steady_logging|]. intros _.
    apply steady_bind; [apply steady_logging|]. intros _. apply steady_ret.
Qed.

Lemma steady_cleanup_temp_dir : steady (cleanup_temp_dir E).
Proof.
  unfold cleanup_temp_dir. apply steady_bind; [apply steady_os_path_exists|].
  intros [|]; [|apply steady_ret].
  apply steady_try_except; [apply steady_fs_operation|]. intros _. apply steady_ret.
Qed.

Lemma steady_convert_vsd_to_vdx i o : steady (convert_vsd_to_vdx E i o).
Proof.
  unfold convert_vsd_to_vdx. apply steady_try_finally; [|apply steady_cleanup_temp_dir].
  apply steady_try_except.
  - unfold convert_vsd_body. apply steady_bind; [apply steady_fs_operation|]. intros _.
    apply steady_bind; [apply steady_attempt_unoconv|]. intros [b|]; [apply steady_ret|].
    apply steady_bind; [apply steady_attempt_soffice|]. intros [b|]; [apply steady_ret|].
    apply steady_bind; [apply steady_logging|]. intros _. apply steady_ret.
  - intros e. apply steady_bind; [apply steady_logging|]. intros _.
    apply steady_bind; [apply steady_logging|]. intros _. apply steady_ret.
Qed.

(** The choice of the backend and the backend itself never read the clock. *)
Lemma steady_dispatch i ext o vs vd : steady (dispatch E i ext o vs vd).
Proof.
  unfold dispatch. destruct (str_in ext _).
  { destruct vs; [apply steady_convert_vsdx_to_vdx|].
    apply steady_bind; [apply steady_logging|]. intros _. apply steady_ret. }
  destruct (str_in ext _).
  { destruct vd; [apply steady_convert_vsd_to_vdx|].
    apply steady_bind; [apply steady_logging|]. intros _. apply steady_ret. }
  apply steady_bind; [apply steady_logging|]. intros _. apply steady_ret.
Qed.

End Steady.


(** ** [process_file], path by path *)

(** The four ways through [process_file], with the world each one leaves. *)
Lemma process_file_paths E input_file vs vd w w' r :
  process_file E input_file vs vd w = Some (w', inr r) →
  let fn := Path.basename input_file in
  let st := time_time E (clock w) in
  ∃ out arch w1 res,
    get_unique_filename (fs w) (output_path E input_file) = Some out ∧
    get_unique_filename (fs w) (archive_path E input_file) = Some arch ∧
    dispatch E input_file (ext_of input_file) out vs vd (try_start input_file w)
      = (w1, res) ∧
    match res with
    | inr true =>
        (∃ f', shutil_move E input_file arch (tick w1) = (set_fs f' (tick w1), inr tt) ∧
           r = success_record fn out arch (time_time E (clock w1) - st) ∧
           w' = World f'
                  (log w1 ++
                   [(INFO, "✅ Conversion successful: " +:+ Path.basename out +:+ " (" +:+
                           format_2f E (time_time E (clock w1) - st) +:+ "s)")])
                  (trace w1) (S (clock w1))) ∨
        (∃ e, shutil_move E input_file arch (tick w1) = (tick w1, inl e) ∧
           r = failure_record fn (time_time E (S (clock w1)) - st) (exn_msg e) ∧
           w' = World (fs w1)
                  (log w1 ++
                   [(ERROR, "❌ Error processing " +:+ fn +:+ ": " +:+ exn_msg e);
                    (DEBUG, format_exc E e)])
                  (trace w1) (S (S (clock w1))))
    | inr false =>
        r = failure_record fn (time_time E (clock w1) - st) "Conversion process failed" ∧
        w' = World (fs w1) (log w1 ++ [(ERROR, "❌ Conversion failed: " +:+ fn)])
               (trace w1) (S (clock w1))
    | inl e =>
        r = failure_record fn (time_time E (clock w1) - st) (exn_msg e) ∧
        w' = World (fs w1)
               (log w1 ++
                [(ERROR, "❌ Error processing " +:+ fn +:+ ": " +:+ exn_msg e);
                 (DEBUG, format_exc E e)])
               (trace w1) (S (clock w1))
    end.
Proof.
  intros Hpf fn st. rewrite process_file_unfold in Hpf.
  destruct (get_unique_filename_total (fs w) (output_path E input_file)) as (out & Ho & _).
  destruct (get_unique_filename_total (fs w) (archive_path E input_file)) as (arch & Ha & _).
  rewrite Ho, Ha in Hpf. simpl in Hpf. injection Hpf as Hpf.
  fold (ext_of input_file) in Hpf. fold fn st in Hpf.
  exists out, arch.
  unfold try_except, process_file_try, bind in Hpf.
  destruct (dispatch E input_file (ext_of input_file) out vs vd (try_start input_file w))
    as [w1 [e|[|]]] eqn:Hd; exists w1; eexists; (do 3 (split; [done|])).
  - unfold process_file_except, bind in Hpf. simpl in Hpf.
    injection Hpf as <- <-. rewrite <-(assoc_L (++)). done.
  - simpl in Hpf. fold (tick w1) in Hpf. unfold shutil_move in *.
    match type of Hpf with context [fs_operation E ?op ?eff ?w2] =>
      destruct (fs_operation_outcome E op eff w2) as [[f' Hmv]|[o Hmv]];
      rewrite Hmv in Hpf end.
    + left. exists f'. split; [done|]. simpl in Hpf. by injection Hpf as <- <-.
    + right. eexists. split; [done|]. unfold process_file_except, bind in Hpf.
      simpl in Hpf. injection Hpf as <- <-. rewrite <-(assoc_L (++)). done.
  - simpl in Hpf. by injection Hpf as <- <-.
Qed.

(** X6.  The elapsed time of a result is the difference of two readings of
    the clock, the later minus the earlier: with a clock that never runs
    backwards the elapsed time of every result is non-negative. *)
Theorem elapsed_time_nonnegative E input_file vs vd w w' r :
  (∀ n m, n ≤ m → (time_time E n ≤ time_time E m)%Z) →
  process_file E input_file vs vd w = Some (w', inr r) →
  (0 ≤ time r)%Z.
Proof.
  intros Hmono Hpf.
  destruct (process_file_paths E _ _ _ _ _ _ Hpf) as (out & arch & w1 & res & _ & _ & Hd & Hr).
  destruct (steady_dispatch E _ _ _ _ _ _ _ _ Hd) as [Hclock _]. simpl in Hclock.
  assert (time_time E (clock w) ≤ time_time E (clock w1))%Z by (apply Hmono; lia).
  assert (time_time E (clock w) ≤ time_time E (S (clock w1)))%Z by (apply Hmono; lia).
  destruct res as [e|[|]].
  - destruct Hr as [-> _]. simpl. lia.
  - destruct Hr as [(f' & _ & -> & _)|(e & _ & -> & _)]; simpl; lia.
  - destruct Hr as [-> _]. simpl. lia.
Qed.

Lemma elapsed_time_nonnegative_witness :
  ∃ w' r,
    process_file scenario_env "/app/input/b.vsd" true true scenario_world
      = Some (w', inr r) ∧ (0 ≤ time r)%Z.
Proof.
  destruct (process_file scenario_env "/app/input/b.vsd" true true scenario_world)
    as [[w' [e|r]]|] eqn:Hpf; try (vm_compute in Hpf; discriminate Hpf).
  exists w', r. split; [reflexivity|].
  apply (elapsed_time_nonnegative scenario_env "/app/input/b.vsd" true true
           scenario_world w' r); [|exact Hpf].
  intros n m Hnm. simpl. lia.
Defined.

(** X7.  Every file gets an opening line and a verdict in the log:
    [process_file] first logs ["Processing: <name>"] and, after whatever the
    backends log, ends with the verdict: one line at level INFO for a
    success, and for a failure a line at level ERROR (followed, when an
    exception was caught, by the traceback at level DEBUG). *)
Theorem process_file_logs_verdict E input_file vs vd w w' r :
  process_file E input_file vs vd w = Some (w', inr r) →
  ∃ middle verdict,
    log w' = log w ++
      (INFO, "Processing: " +:+ Path.basename input_file) :: middle ++ verdict ∧
    if success r
    then verdict =
           [(INFO, "✅ Conversion successful: " +:+ str_opt (output r) +:+ " (" +:+
                   format_2f E (time r) +:+ "s)")]
    else verdict = [(ERROR, "❌ Conversion failed: " +:+ filename r)] ∨
         ∃ msg tb, error r = Some msg ∧
           verdict = [(ERROR, "❌ Error processing " +:+ filename r +:+ ": " +:+ msg);
                      (DEBUG, tb)].
Proof.
  intros Hpf.
  destruct (process_file_paths E _ _ _ _ _ _ Hpf) as (out & arch & w1 & res & _ & _ & Hd & Hr).
  destruct (steady_dispatch E _ _ _ _ _ _ _ _ Hd) as [_ [middle Hlog]]. simpl in Hlog.
  exists middle.
  assert (∀ v, (log w ++ [(INFO, "Processing: " +:+ Path.basename input_file)] ++ middle) ++ v
               = log w ++ (INFO, "Processing: " +:+ Path.basename input_file)
                   :: middle ++ v) as Hassoc.
  { intros v. by rewrite <-!(assoc_L (++)). }
  rewrite <-(assoc_L (++)) in Hlog.
  destruct res as [e|[|]].
  - destruct Hr as [-> ->]. eexists. simpl. rewrite Hlog. split; [apply Hassoc|].
    right. eauto.
  - destruct Hr as [(f' & _ & -> & ->)|(e & _ & -> & ->)];
      eexists; simpl; rewrite Hlog; (split; [apply Hassoc|]); [done|right; eauto].
  - destruct Hr as [-> ->]. eexists. simpl. rewrite Hlog. split; [apply Hassoc|].
    by left.
Qed.

Lemma process_file_logs_verdict_witness :
  ∃ w' r middle verdict,
    process_file scenario_env "/app/input/a.vsdx" true false scenario_world
      = Some (w', inr r) ∧
    log w' = (INFO, "Processing: a.vsdx") :: middle ++ verdict ∧
    verdict = [(INFO, "✅ Conversion successful: a.vdx (1s)")].
Proof.
  pose (o := process_file scenario_env "/app/input/a.vsdx" true false scenario_world).
  assert (process_file scenario_env "/app/input/a.vsdx" true false scenario_world = o)
    as Hpf by reflexivity.
  vm_compute in (value of o). subst o.
  destruct (process_file_logs_verdict _ _ _ _ _ _ _ Hpf) as (middle & verdict & Hlog & Hv).
  eexists _, _, middle, verdict. split; [exact Hpf|]. split; [exact Hlog|exact Hv].
Defined.


(** ** What the backends launch *)

Lemma convert_vsdx_to_vdx_trace E input_file output_file w w' r :
  convert_vsdx_to_vdx E input_file output_file w = (w', r) →
  trace w' = trace w ∨ trace w' = trace w ++ [OpenVisio input_file].
Proof.
  unfold convert_vsdx_to_vdx. destruct (negb _); [intros [= <- _]; by left|].
  unfold try_except, bind, vsdx_VisioFile.
  destruct (VisioFile E input_file (fs w)) as [e|d]; [intros [= <- _]; by right|].
  destruct (tree_write E _ _ _) as [w1 [e|[]]] eqn:Hw;
    apply fs_operation_trace in Hw as (Ht & _); intros [= <- _]; right; exact Ht.
Qed.

Lemma convert_vsd_to_vdx_launches E input_file output_file w w' r :
  convert_vsd_to_vdx E input_file output_file w = (w', r) →
  trace w' = trace w ∨
  (∃ f0, trace w' = trace w ++ [Spawn (unoconv_argv E input_file) f0]) ∨
  (∃ f0 f1, trace w' = trace w ++ [Spawn (unoconv_argv E input_file) f0;
                                    Spawn (soffice_argv E input_file) f1]).
Proof.
  assert (∀ w1 r1, convert_vsd_body E input_file output_file w = (w1, r1) →
    trace w1 = trace w ∨
    (∃ f0, trace w1 = trace w ++ [Spawn (unoconv_argv E input_file) f0]) ∨
    (∃ f0 f1, trace w1 = trace w ++ [Spawn (unoconv_argv E input_file) f0;
                                      Spawn (soffice_argv E input_file) f1])) as Hbody.
  { intros w1 r1. unfold convert_vsd_body, bind.
    destruct (os_makedirs E (temp_dir E) w) as [w0 [e|[]]] eqn:Hmk;
      apply fs_operation_trace in Hmk as (Ht0 & _); [intros [= <- _]; by left|].
    destruct (attempt_unoconv E _ _ _ w0) as [w2 [e|o1]] eqn:H1;
      apply attempt_unoconv_trace in H1; rewrite Ht0 in H1;
      [intros [= <- _]; right; left; eauto|].
    destruct o1 as [b|]; [intros [= <- _]; right; left; eauto|].
    destruct (attempt_soffice E _ _ _ w2) as [w3 [e|o2]] eqn:H2;
      apply attempt_soffice_trace in H2; rewrite H1, <-(assoc_L (++)) in H2; simpl in H2;
      [intros [= <- _]; right; right; eauto|].
    destruct o2 as [b|]; simpl; intros [= <- _]; right; right; eauto. }
  unfold convert_vsd_to_vdx, try_finally, try_except.
  destruct (convert_vsd_body E input_file output_file w) as [w1 [e|b]] eqn:Hb;
    specialize (Hbody _ _ eq_refl).
  - unfold bind, logging, ret. simpl.
    match goal with |- context [cleanup_temp_dir E ?w0] =>
      destruct (cleanup_temp_dir_removed E w0) as (w2 & -> & Ht & _) end.
    intros [= <- _]. by rewrite Ht.
  - destruct (cleanup_temp_dir_removed E w1) as (w2 & -> & Ht & _).
    intros [= <- _]. by rewrite Ht.
Qed.

(** X8.  What [process_file] calls outside the script is fixed by the
    extension family: for a [.vsdx]/[.vsdm] input it opens the document with
    the parser at most once and never launches a process; for a
    [.vsd]/[.vdw] input it never opens the parser and launches at most two
    processes, unoconv first and LibreOffice only after unoconv; with the
    backend of the family switched off, or for any other extension, it calls
    nothing. *)
Theorem process_file_external_calls E input_file vs vd w w' r :
  process_file E input_file vs vd w = Some (w', inr r) →
  ∃ evs, trace w' = trace w ++ evs ∧
    (evs = [] ∨
     (evs = [OpenVisio input_file] ∧
      str_in (ext_of input_file) [".vsdx"; ".vsdm"] = true ∧ vs = true) ∨
     ((∃ f0, evs = [Spawn (unoconv_argv E input_file) f0]) ∧
      str_in (ext_of input_file) [".vsd"; ".vdw"] = true ∧ vd = true) ∨
     ((∃ f0 f1, evs = [Spawn (unoconv_argv E input_file) f0;
                       Spawn (soffice_argv E input_file) f1]) ∧
      str_in (ext_of input_file) [".vsd"; ".vdw"] = true ∧ vd = true)).
Proof.
  intros Hpf.
  destruct (process_file_paths E _ _ _ _ _ _ Hpf) as (out & arch & w1 & res & _ & _ & Hd & Hr).
  assert (trace w' = trace w1) as ->.
  { destruct res as [e|[|]]; [by destruct Hr as [_ ->]| |by destruct Hr as [_ ->]].
    by destruct Hr as [(f' & _ & _ & ->)|(e & _ & _ & ->)]. }
  unfold dispatch in Hd. change (trace w) with (trace (try_start input_file w)).
  assert (∀ w0 : world, ∃ evs, trace w0 = trace w0 ++ evs ∧ evs = []) as Hnil.
  { intros w0. exists []. by rewrite app_nil_r. }
  destruct (str_in (ext_of input_file) [".vsdx"; ".vsdm"]) eqn:Hx.
  { destruct vs.
    - apply convert_vsdx_to_vdx_trace in Hd as [->| ->].
      + exists []. rewrite app_nil_r. auto.
      + eexists. split; [done|]. auto.
    - unfold bind in Hd. simpl in Hd. injection Hd as <- _. simpl.
      exists []. rewrite app_nil_r. auto. }
  destruct (str_in (ext_of input_file) [".vsd"; ".vdw"]) eqn:Hv.
  { destruct vd.
    - apply convert_vsd_to_vdx_launches in Hd as [->|[[f0 ->]|(f0 & f1 & ->)]].
      + exists []. rewrite app_nil_r. auto.
      + eexists. split; [done|]. right. right. left. eauto.
      + eexists. split; [done|]. right. right. right. eauto.
    - unfold bind in Hd. simpl in Hd. injection Hd as <- _. simpl.
      exists []. rewrite app_nil_r. auto. }
  unfold bind in Hd. simpl in Hd. injection Hd as <- _. simpl.
  exists []. rewrite app_nil_r. auto.
Qed.

Lemma process_file_external_calls_witness :
  ∃ w' r evs,
    process_file soffice_only_env "/app/input/b.vsd" true true scenario_world
      = Some (w', inr r) ∧
    trace w' = evs ∧ length evs = 2.
Proof.
  pose (o := process_file soffice_only_env "/app/input/b.vsd" true true scenario_world).
  assert (process_file soffice_only_env "/app/input/b.vsd" true true scenario_world = o)
    as Hpf by reflexivity.
  vm_compute in (value of o). subst o.
  destruct (process_file_external_calls _ _ _ _ _ _ _ Hpf) as (evs & Htrace & _).
  eexists _, _, evs. split; [exact Hpf|]. split; [exact Htrace|].
  apply (f_equal length) in Htrace. simpl in Htrace. symmetry. exact Htrace.
Defined.


(** ** Identifiers and names in the emitted document *)

Lemma NoDup_enumerate1_ids {A} (g : nat → A → element) (l : list A) :
  (∀ n x, attrib_get "ID" (attrib_of (g n x)) = Some (pretty n)) →
  NoDup ((λ e, attrib_get "ID" (attrib_of e)) <$> enumerate1 g l).
Proof.
  intros Hid. apply NoDup_alt. intros i j x.
  rewrite !list_lookup_fmap, !enumerate1_lookup.
  destruct (l !! i) as [a|]; [|done]. destruct (l !! j) as [b|]; [|done].
  simpl. rewrite !Hid. intros [= <-] [= Heq].
  apply (inj pretty) in Heq. lia.
Qed.

(** X9.  In the document the native backend builds, the identifiers of the
    page elements are pairwise distinct, within every page the identifiers
    of its shape elements are pairwise distinct, and every shape element has
    a name that is not empty. *)
Theorem emitted_identifiers_are_distinct (input_file : string) (d : drawing) :
  let root := build_vdx input_file d in
  NoDup ((λ e, attrib_get "ID" (attrib_of e)) <$> page_elements root) ∧
  ∀ pe, pe ∈ page_elements root →
    NoDup ((λ e, attrib_get "ID" (attrib_of e)) <$> shape_elements pe) ∧
    ∀ se, se ∈ shape_elements pe →
      ∃ nm, attrib_get "Name" (attrib_of se) = Some nm ∧ nm ≠ "".
Proof.
  cbv zeta. rewrite page_elements_build_vdx. split.
  { by apply NoDup_enumerate1_ids. }
  intros pe (i & Hpe)%list_elem_of_lookup.
  rewrite enumerate1_lookup in Hpe.
  destruct (pages d !! i) as [p|]; [|done]. injection Hpe as <-.
  rewrite shape_elements_build_page. split.
  { by apply NoDup_enumerate1_ids. }
  intros se (j & Hse)%list_elem_of_lookup.
  rewrite enumerate1_lookup in Hse.
  destruct (page_shapes p !! j) as [s|]; [|done]. injection Hse as <-.
  unfold build_shape. simpl.
  destruct (shape_name s) as [nm|].
  - destruct (decide (nm = "")); eexists; (split; [reflexivity|]); done.
  - eexists. split; [reflexivity|]. done.
Qed.

Lemma emitted_identifiers_are_distinct_witness :
  ∃ pe, page_elements (build_vdx "/app/input/a.vsdx" sample_drawing) !! 0 = Some pe ∧
        NoDup ((λ e, attrib_get "ID" (attrib_of e)) <$> shape_elements pe).
Proof.
  destruct (emitted_identifiers_are_distinct "/app/input/a.vsdx" sample_drawing)
    as [_ Hpages].
  eexists. split; [reflexivity|]. apply Hpages.
  apply list_elem_of_here.
Defined.


(** ** The output of the external backends *)

Section Delivery.
Context (E : env) (input_file output_file : string).

Local Abbreviation base := ((Path.splitext (Path.basename input_file)).1).
Local Abbreviation art := (artifact E input_file).

Hypothesis output_not_artifact : output_file ≠ art.
Hypothesis copy_not_refused : ∀ f, os_fault E (Copy2 art output_file) f = None.
Hypothesis remove_not_refused : ∀ f, os_fault E (Remove art) f = None.

(** A run that delivers: the artifact is copied onto the output file and
    removed from the scratch directory. *)
Lemma run_and_collect_delivered argv w r f1 :
  spawn E argv (fs w) = (r, f1) →
  anticipated r f1 art output_file →
  delivers r f1 art = true →
  ∃ w' c,
    f1 !! art = Some (File c) ∧
    run_and_collect E argv base output_file w = (w', inr (Some true)) ∧
    fs w' = delete art (<[output_file := File c]> f1).
Proof.
  intros Hspawn (Hlaunch & Hdir & Hout) Hdel.
  unfold run_and_collect, bind, subprocess_run. rewrite Hspawn.
  fold art. unfold delivers in Hdel.
  destruct r as [o|c]; [done|]. apply andb_true_iff in Hdel as [Hrc Hex].
  rewrite Hrc. simpl. unfold os_path_exists. simpl. rewrite Hex.
  apply exists_in_true in Hex as [n Hn]. destruct n as [|c1]; [done|].
  unfold shutil_copy2, os_remove, fs_operation. simpl.
  rewrite copy_not_refused, Hn.
  assert (match f1 !! output_file with
          | Some Dir => Path.join output_file (Path.basename art)
          | _ => output_file
          end = output_file) as ->.
  { by destruct (f1 !! output_file) as [[|c2]|]. }
  rewrite decide_False by (by intros <-). simpl.
  rewrite remove_not_refused, lookup_insert_ne, Hn by done. simpl.
  eexists _, c1. done.
Qed.

End Delivery.




(** ** [check_dependencies] *)

(** The two probes and what [check_dependencies] makes of them. *)
Lemma check_dependencies_cases E w r1 f1 r2 f2 :
  spawn E ["which"; "soffice"] (fs w) = (r1, f1) →
  spawn E ["which"; "unoconv"] f1 = (r2, f2) →
  ∃ w',
    match r2 with
    | inl (EOTHER msg) => check_dependencies E w = (w', inl (Exn OSError msg))
    | _ =>
        check_dependencies E w =
          (w', inr (VSDX_SUPPORT E, soffice_found r1 || unoconv_found r2,
                    (if VSDX_SUPPORT E then [] else ["vsdx"]) ++
                    (if soffice_reported_missing r1 then ["LibreOffice"] else []) ++
                    (if unoconv_found r2 then [] else ["unoconv"])))
    end ∧
    fs w' = f2 ∧
    trace w' = trace w ++ [Spawn ["which"; "soffice"] (fs w);
                           Spawn ["which"; "unoconv"] f1].
Proof.
  intros Hs1 Hs2.
  unfold check_dependencies, bind, try_except, subprocess_run, logging, ret.
  destruct (VSDX_SUPPORT E); simpl; rewrite Hs1;
    destruct r1 as [[m1|m1]|[rc1 out1]]; simpl;
    try (destruct (bool_decide (rc1 = 0%Z)); simpl);
    try (destruct (bool_decide (out1 = "")); simpl);
    rewrite Hs2;
    destruct r2 as [[m2|m2]|[rc2 out2]]; simpl;
    try (destruct (bool_decide (rc2 = 0%Z)); simpl);
    eexists; (split; [reflexivity|]); (split; [reflexivity|]);
    simpl; rewrite <-?(assoc_L (++)); reflexivity.
Qed.

Lemma elem_of_missing (x : string) (b1 b2 b3 : bool) :
  x ∈ (if b1 then [] else ["vsdx"]) ++ (if b2 then ["LibreOffice"] else []) ++
      (if b3 then [] else ["unoconv"]) ↔
  (x = "vsdx" ∧ b1 = false) ∨ (x = "LibreOffice" ∧ b2 = true) ∨
  (x = "unoconv" ∧ b3 = false).
Proof.
  rewrite !elem_of_app.
  destruct b1, b2, b3; rewrite ?elem_of_cons, ?elem_of_nil;
    split; intros H; intuition (try discriminate; auto).
Qed.

Lemma sublist_missing (b1 b2 b3 : bool) :
  sublist ((if b1 then [] else ["vsdx"]) ++ (if b2 then ["LibreOffice"] else []) ++
           (if b3 then [] else ["unoconv"]))
          ["vsdx"; "LibreOffice"; "unoconv"].
Proof.
  apply (sublist_app _ ["vsdx"] _ ["LibreOffice"; "unoconv"]).
  { destruct b1; [apply sublist_nil_l|done]. }
  apply (sublist_app _ ["LibreOffice"] _ ["unoconv"]).
  { destruct b2; [done|apply sublist_nil_l]. }
  destruct b3; [apply sublist_nil_l|done].
Qed.

(** X11.  What [check_dependencies] reports is consistent: ["vsdx"] is on
    the list of missing dependencies exactly when the library was not
    imported; whenever the external family is reported as unsupported,
    ["unoconv"] is on the list; an empty list means that both families are
    supported; and the list names its entries in the order vsdx,
    LibreOffice, unoconv. *)
Theorem check_dependencies_report E w w' vs vd missing :
  check_dependencies E w = (w', inr (vs, vd, missing)) →
  ("vsdx" ∈ missing ↔ VSDX_SUPPORT E = false) ∧
  (vd = false → "unoconv" ∈ missing) ∧
  (missing = [] → vs = true ∧ vd = true) ∧
  sublist missing ["vsdx"; "LibreOffice"; "unoconv"].
Proof.
  intros Hcd.
  destruct (spawn E ["which"; "soffice"] (fs w)) as [r1 f1] eqn:Hs1.
  destruct (spawn E ["which"; "unoconv"] f1) as [r2 f2] eqn:Hs2.
  destruct (check_dependencies_cases E w r1 f1 r2 f2 Hs1 Hs2) as (w'' & Hcase & _).
  assert (check_dependencies E w =
    (w'', inr (VSDX_SUPPORT E, soffice_found r1 || unoconv_found r2,
               (if VSDX_SUPPORT E then [] else ["vsdx"]) ++
               (if soffice_reported_missing r1 then ["LibreOffice"] else []) ++
               (if unoconv_found r2 then [] else ["unoconv"]))))  as Heq.
  { destruct r2 as [[m|m]|c]; [exact Hcase| |exact Hcase].
    rewrite Hcd in Hcase. discriminate Hcase. }
  rewrite Hcd in Heq. injection Heq as _ -> -> ->.
  split.
  { rewrite elem_of_missing. split.
    - intros [[_ H]|[[H _]|[H _]]]; [exact H|discriminate H..].
    - intros H. left. split; [reflexivity|exact H]. }
  split.
  { intros [_ H]%orb_false_elim. apply elem_of_missing. right. right.
    split; [reflexivity|exact H]. }
  split.
  { destruct (VSDX_SUPPORT E); [|intros H; discriminate H].
    destruct (unoconv_found r2).
    - intros _. split; [reflexivity|apply orb_true_r].
    - destruct (soffice_reported_missing r1); intros H; discriminate H. }
  apply sublist_missing.
Qed.

Lemma check_dependencies_report_witness :
  ∃ w' vs vd missing,
    check_dependencies scenario_env scenario_world = (w', inr (vs, vd, missing)) ∧
    (vd = false → "unoconv" ∈ missing).
Proof.
  pose (o := check_dependencies scenario_env scenario_world).
  assert (check_dependencies scenario_env scenario_world = o) as Hcd by reflexivity.
  vm_compute in (value of o). subst o.
  destruct (check_dependencies_report _ _ _ _ _ _ Hcd) as (_ & Hun & _).
  eexists _, _, _, _. split; [exact Hcd|exact Hun].
Defined.



(** ** What the script leaves alone *)

Section Frame.
Context (E : env) (out : string).
Hypothesis spawn_confined : confined E.
Hypothesis out_outside : under (temp_dir E) out = false.

Lemma frame_refl f : frame (temp_dir E) out f f.
Proof. intros H. split; [exact H|]. intros q _ _. reflexivity. Qed.

Lemma frame_trans f1 f2 f3 :
  frame (temp_dir E) out f1 f2 → frame (temp_dir E) out f2 f3 →
  frame (temp_dir E) out f1 f3.
Proof.
  intros H12 H23 H1. destruct (H12 H1) as [H2 Hq]. destruct (H23 H2) as [H3 Hq'].
  split; [exact H3|]. intros q Hu Hne. rewrite (Hq' q Hu Hne). exact (Hq q Hu Hne).
Qed.

Lemma framed_ret {A} (a : A) : framed (temp_dir E) out (ret a).
Proof. intros w w' r [= <- _]. apply frame_refl. Qed.

Lemma framed_raise {A} e : framed (temp_dir E) out (raise (A:=A) e).
Proof. intros w w' r [= <- _]. apply frame_refl. Qed.

Lemma framed_bind {A B} (m : M A) (k : A → M B) :
  framed (temp_dir E) out m → (∀ a, framed (temp_dir E) out (k a)) →
  framed (temp_dir E) out (bind m k).
Proof.
  intros Hm Hk w w' r. unfold bind.
  destruct (m w) as [w1 [e|a]] eqn:Hmw.
  - intros [= <- _]. exact (Hm _ _ _ Hmw).
  - intros Hka. exact (frame_trans _ _ _ (Hm _ _ _ Hmw) (Hk a _ _ _ Hka)).
Qed.

Lemma framed_try_except {A} (m : M A) (h : exn → M A) :
  framed (temp_dir E) out m → (∀ e, framed (temp_dir E) out (h e)) →
  framed (temp_dir E) out (try_except m h).
Proof.
  intros Hm Hh w w' r. unfold try_except.
  destruct (m w) as [w1 [e|a]] eqn:Hmw.
  - intros Hhe. exact (frame_trans _ _ _ (Hm _ _ _ Hmw) (Hh e _ _ _ Hhe)).
  - intros [= <- _]. exact (Hm _ _ _ Hmw).
Qed.

Lemma framed_try_finally {A} (m : M A) (c : M unit) :
  framed (temp_dir E) out m → framed (temp_dir E) out c →
  framed (temp_dir E) out (try_finally m c).
Proof.
  intros Hm Hc w w' r. unfold try_finally.
  destruct (m w) as [w1 r1] eqn:Hmw. destruct (c w1) as [w2 [e|u]] eqn:Hcw;
    intros [= <- _]; exact (frame_trans _ _ _ (Hm _ _ _ Hmw) (Hc _ _ _ Hcw)).
Qed.

Lemma framed_logging l msg : framed (temp_dir E) out (logging l msg).
Proof. intros w w' r [= <- _]. apply frame_refl. Qed.

Lemma framed_os_path_exists p : framed (temp_dir E) out (os_path_exists p).
Proof. intros w w' r [= <- _]. apply frame_refl. Qed.

Lemma framed_vsdx_VisioFile p : framed (temp_dir E) out (vsdx_VisioFile E p).
Proof. intros w w' r [= <- _]. apply frame_refl. Qed.

(** A launched program: by [spawn_confined]. *)
Lemma framed_subprocess_run argv check :
  framed (temp_dir E) out (subprocess_run E argv check).
Proof.
  intros w w' r. unfold subprocess_run.
  pose proof (spawn_confined argv (fs w)) as Hc.
  destruct (spawn E argv (fs w)) as [[o|c] f1]; simpl in Hc.
  - intros [= <- _] Hout. simpl. split; [by rewrite (Hc out out_outside)|].
    intros q Hq _. exact (Hc q Hq).
  - destruct (_ && _); intros [= <- _] Hout; simpl;
      (split; [by rewrite (Hc out out_outside)|]); intros q Hq _; exact (Hc q Hq).
Qed.

Lemma framed_fs_operation op eff :
  (∀ f f', eff f = inr f' → frame (temp_dir E) out f f') →
  framed (temp_dir E) out (fs_operation E op eff).
Proof.
  intros Heff w w' r H.
  destruct (fs_operation_cases E op eff w) as [(f' & _ & He & Hop)|[o Hop]];
    rewrite Hop in H; injection H as <- _.
  - exact (Heff _ _ He).
  - apply frame_refl.
Qed.

Lemma out_not_in_scratch p : under (temp_dir E) p = true → out ≠ p.
Proof. intros Hp ->. rewrite Hp in out_outside. discriminate out_outside. Qed.

Lemma framed_os_makedirs_scratch : framed (temp_dir E) out (os_makedirs E (temp_dir E)).
Proof.
  apply framed_fs_operation. intros f f' H. simpl in H.
  pose proof (out_not_in_scratch _ (under_refl (temp_dir E))) as Hne.
  destruct (f !! temp_dir E) as [[|c]|] eqn:Hd; [|discriminate H|]; injection H as <-.
  - apply frame_refl.
  - intros Hout. split; [by rewrite lookup_insert_ne|].
    intros q Hq _. apply lookup_insert_ne. intros <-.
    rewrite under_refl in Hq. discriminate Hq.
Qed.

Lemma framed_shutil_copy2 src : framed (temp_dir E) out (shutil_copy2 E src out).
Proof.
  apply framed_fs_operation. intros f f' H Hout. simpl in H.
  destruct (f !! src) as [[|c]|]; [discriminate H| |discriminate H].
  assert (match f !! out with
          | Some Dir => Path.join out (Path.basename src)
          | _ => out
          end = out) as Hreal.
  { destruct (f !! out) as [[|c']|]; [by destruct Hout|done|done]. }
  rewrite Hreal in H. destruct (decide (src = out)); [discriminate H|].
  injection H as <-. split.
  - rewrite lookup_insert_eq. discriminate.
  - intros q _ Hne. apply lookup_insert_ne. congruence.
Qed.

Lemma framed_os_remove p :
  under (temp_dir E) p = true → framed (temp_dir E) out (os_remove E p).
Proof.
  intros Hp. apply framed_fs_operation. intros f f' H Hout. simpl in H.
  destruct (f !! p) as [[|c]|]; [discriminate H| |discriminate H].
  injection H as <-. split.
  - rewrite lookup_delete_ne; [exact Hout|].
    intros Heq. exact (out_not_in_scratch p Hp (eq_sym Heq)).
  - intros q Hq _. apply lookup_delete_ne. intros ->. congruence.
Qed.

Lemma framed_tree_write root : framed (temp_dir E) out (tree_write E root out).
Proof.
  apply framed_fs_operation. intros f f' H Hout. simpl in H.
  assert (f' = <[out := File (XmlDoc root)]> f) as ->.
  { destruct (f !! out) as [[|c]|]; [discriminate H|by injection H|by injection H]. }
  split.
  - rewrite lookup_insert_eq. discriminate.
  - intros q _ Hne. apply lookup_insert_ne. congruence.
Qed.

Lemma framed_cleanup_temp_dir : framed (temp_dir E) out (cleanup_temp_dir E).
Proof.
  intros w w' r H Hout. split.
  - by rewrite (cleanup_temp_dir_outside E w w' r out H out_outside).
  - intros q Hq _. exact (cleanup_temp_dir_outside E w w' r q H Hq).
Qed.

Lemma framed_convert_vsdx_to_vdx i : framed (temp_dir E) out (convert_vsdx_to_vdx E i out).
Proof.
  unfold convert_vsdx_to_vdx. destruct (negb _); [apply framed_raise|].
  apply framed_try_except.
  - apply framed_bind; [apply framed_vsdx_VisioFile|]. intros d.
    apply framed_bind; [apply framed_tree_write|]. intros _. apply framed_ret.
  - intros e. apply framed_bind; [apply framed_logging|]. intros _.
    apply framed_bind; [apply framed_logging|]. intros _. apply framed_ret.
Qed.

Lemma framed_run_and_collect argv b :
  Str.has_char "/" b = false →
  framed (temp_dir E) out (run_and_collect E argv b out).
Proof.
  intros Hb. unfold run_and_collect.
  apply framed_bind; [apply framed_subprocess_run|]. intros _.
  apply framed_bind; [apply framed_os_path_exists|]. intros [|]; [|apply framed_ret].
  apply framed_bind; [apply framed_shutil_copy2|]. intros _.
  apply framed_bind; [apply framed_os_remove, artifact_in_scratch, Hb|]. intros _.
  apply framed_ret.
Qed.

Lemma framed_attempt_unoconv i b :
  Str.has_char "/" b = false →
  framed (temp_dir E) out (attempt_unoconv E i b out).
Proof.
  intros Hb. unfold attempt_unoconv. apply framed_try_except.
  - apply framed_bind; [apply framed_logging|]. intros _.
    by apply framed_run_and_collect.
  - intros e. destruct (is_subprocess_or_not_found e); [|apply framed_raise].
    apply framed_bind; [apply framed_logging|]. intros _. apply framed_ret.
Qed.

Lemma framed_attempt_soffice i b :
  Str.has_char "/" b = false →
  framed (temp_dir E) out (attempt_soffice E i b out).
Proof.
  intros Hb. unfold attempt_soffice. apply framed_try_except.
  - apply framed_bind; [apply framed_logging|]. intros _.
    by apply framed_run_and_collect.
  - intros e. destruct (is_subprocess_or_not_found e); [|apply framed_raise].
    apply framed_bind; [apply framed_logging|]. intros _.
    apply framed_bind; [apply framed_logging|]. intros _. apply framed_ret.
Qed.

Lemma framed_convert_vsd_to_vdx i : framed (temp_dir E) out (convert_vsd_to_vdx E i out).
Proof.
  assert (Str.has_char "/" (Path.splitext (Path.basename i)).1 = false) as Hb
    by apply splitext_fst_no_slash, basename_no_slash.
  unfold convert_vsd_to_vdx. apply framed_try_finally; [|apply framed_cleanup_temp_dir].
  apply framed_try_except.
  - unfold convert_vsd_body.
    apply framed_bind; [apply framed_os_makedirs_scratch|]. intros _.
    apply framed_bind; [by apply framed_attempt_unoconv|]. intros [b|]; [apply framed_ret|].
    apply framed_bind; [by apply framed_attempt_soffice|]. intros [b|]; [apply framed_ret|].
    apply framed_bind; [apply framed_logging|]. intros _. apply framed_ret.
  - intros e. apply framed_bind; [apply framed_logging|]. intros _.
    apply framed_bind; [apply framed_logging|]. intros _. apply framed_ret.
Qed.

(** Whatever backend is chosen, the conversion touches nothing outside the
    scratch directory but the output file. *)
Lemma framed_dispatch i ext vs vd : framed (temp_dir E) out (dispatch E i ext out vs vd).
Proof.
  unfold dispatch. destruct (str_in ext _).
  { destruct vs; [apply framed_convert_vsdx_to_vdx|].
    apply framed_bind; [apply framed_logging|]. intros _. apply framed_ret. }
  destruct (str_in ext _).
  { destruct vd; [apply framed_convert_vsd_to_vdx|].
    apply framed_bind; [apply framed_logging|]. intros _. apply framed_ret. }
  apply framed_bind; [apply framed_logging|]. intros _. apply framed_ret.
Qed.

End Frame.

(** ** Where the original goes *)

(** A unique name derived from [d/t] lies in [d]. *)
Lemma get_unique_filename_below (f : filesystem) d t p :
  d ≠ "" → Str.endswith_char "/" d = false → Str.has_char "/" t = false →
  get_unique_filename f (Path.join d t) = Some p →
  ∃ rest, p = d +:+ "/" +:+ rest.
Proof.
  intros Hd Hend Ht Hp.
  rewrite join_dir_name in Hp by (auto using no_slash_not_absolute).
  apply get_unique_filename_shape in Hp as [->|[k ->]]; [eauto|].
  rewrite candidate_probe_name, split_dir_file by done.
  unfold probe_name.
  pose proof (splitext_fst_no_slash _ Ht) as Hname.
  rewrite join_dir_name; [eauto|done|done|by apply name_suffix_not_absolute].
Qed.

Lemma archive_below E (f : filesystem) input_file arch :
  get_unique_filename f (archive_path E input_file) = Some arch →
  ∃ rest, arch = join_prefix (SCRIPT_DIR E) +:+ "archive/" +:+ rest.
Proof.
  intros H. destruct (ARCHIVE_DIR_shape E) as [H1 H2].
  apply get_unique_filename_below in H as [rest ->]; [|done|done|apply basename_no_slash].
  exists rest. rewrite ARCHIVE_DIR_eq. by rewrite !str_app_assoc.
Qed.

Lemma output_below E (f : filesystem) input_file out :
  get_unique_filename f (output_path E input_file) = Some out →
  ∃ rest, out = join_prefix (SCRIPT_DIR E) +:+ "output/" +:+ rest.
Proof.
  intros [->|[k ->]]%get_unique_filename_shape.
  - rewrite output_path_eq. eauto.
  - apply candidate_output_path.
Qed.

(** The archive file [process_file] chooses is never inside the scratch
    directory, and it is not the output file. *)
Lemma archive_outside_scratch E (f : filesystem) input_file arch :
  get_unique_filename f (archive_path E input_file) = Some arch →
  under (temp_dir E) arch = false.
Proof.
  intros [rest ->]%archive_below. unfold under. rewrite temp_dir_eq.
  apply orb_false_intro.
  - apply bool_decide_eq_false. intros H.
    by apply (inj (String.app (join_prefix (SCRIPT_DIR E)))) in H.
  - by rewrite str_app_assoc, startswith_app.
Qed.

Lemma archive_not_output E (f f' : filesystem) input_file out arch :
  get_unique_filename f (output_path E input_file) = Some out →
  get_unique_filename f' (archive_path E input_file) = Some arch →
  arch ≠ out.
Proof.
  intros [r1 ->]%output_below [r2 ->]%archive_below H.
  by apply (inj (String.app (join_prefix (SCRIPT_DIR E)))) in H.
Qed.

(** What the conversion inside [process_file] leaves alone. *)
Lemma process_file_dispatch_frame E input_file vs vd w out w1 res :
  confined E →
  get_unique_filename (fs w) (output_path E input_file) = Some out →
  dispatch E input_file (ext_of input_file) out vs vd (try_start input_file w)
    = (w1, res) →
  ∀ q, under (temp_dir E) q = false → q ≠ out → fs w1 !! q = fs w !! q.
Proof.
  intros Hconf Ho Hd.
  destruct (get_unique_filename_total (fs w) (output_path E input_file))
    as (out' & Ho' & Hfree).
  rewrite Ho in Ho'. injection Ho' as <-.
  pose proof (output_outside_scratch E _ _ _ Ho) as Hout.
  pose proof (framed_dispatch E out Hconf Hout _ _ _ _ _ _ _ Hd) as Hfr.
  simpl in Hfr. destruct Hfr as [_ Hq]; [|exact Hq].
  rewrite Hfree. discriminate.
Qed.

Lemma unoconv_env_confined : confined unoconv_env.
Proof.
  intros argv f q Hq. unfold unoconv_env. cbn [spawn].
  case_bool_decide; simpl; [|reflexivity].
  apply lookup_insert_ne. intros <-. vm_compute in Hq. discriminate Hq.
Qed.





(** ** [main] *)

Lemma os_makedirs_outcome E d w :
  (∃ f', os_makedirs E d w = (set_fs f' w, inr tt)) ∨
  (∃ o, os_makedirs E d w = (w, inl (exn_of_oserror o))).
Proof. apply fs_operation_outcome. Qed.

Lemma logging_eq l msg w :
  logging l msg w = (World (fs w) (log w ++ [(l, msg)]) (trace w) (clock w), inr tt).
Proof. reflexivity. Qed.

Lemma check_dependencies_outcome E w w' res :
  check_dependencies E w = (w', res) →
  (∃ f1, trace w' = trace w ++ [Spawn ["which"; "soffice"] (fs w);
                                Spawn ["which"; "unoconv"] f1]) ∧
  ∀ e, res = inl e → ∃ o, e = exn_of_oserror o.
Proof.
  intros Hcd.
  destruct (spawn E ["which"; "soffice"] (fs w)) as [r1 f1] eqn:Hs1.
  destruct (spawn E ["which"; "unoconv"] f1) as [r2 f2] eqn:Hs2.
  destruct (check_dependencies_cases E w r1 f1 r2 f2 Hs1 Hs2) as (w'' & Hcase & _ & Ht).
  destruct r2 as [[m|m]|c]; rewrite Hcd in Hcase; injection Hcase as <- ->;
    (split; [exists f1; exact Ht|]); intros e He; try discriminate He.
  injection He as <-. by exists (EOTHER m).
Qed.

Lemma get_visio_files_outcome E d w w' res :
  get_visio_files E d w = (w', res) →
  w' = w ∧ ∀ e, res = inl e → ∃ o, e = exn_of_oserror o.
Proof.
  unfold get_visio_files. destruct (os_listdir E d (fs w)) as [o|names];
    intros [= <- <-]; (split; [reflexivity|]); intros e He; [|discriminate He].
  injection He as <-. by exists o.
Qed.

Ltac makedirs_step E H :=
  match type of H with
  | bind (os_makedirs E ?d) _ ?w0 = _ =>
      let Hm := fresh "Hm" in
      destruct (os_makedirs_outcome E d w0) as [[? Hm]|[? Hm]];
      [rewrite (bind_inr _ _ _ _ _ Hm) in H; cbv beta in H; clear Hm
      |rewrite (bind_inl _ _ _ _ _ Hm) in H; injection H as <- <-; left;
       split; [eauto|reflexivity]]
  end.

(** The preparation of [main] ends in one of three ways: a directory could
    not be created, the dependency check or the listing raised, or the
    files have been discovered. *)
Lemma main_prepare_cases E w w' res :
  main_prepare E w = (w', res) →
  ((∃ o, res = inl (exn_of_oserror o)) ∧ trace w' = trace w) ∨
  ∃ f0 f1,
    trace w' = trace w ++ [Spawn ["which"; "soffice"] f0;
                           Spawn ["which"; "unoconv"] f1] ∧
    match res with
    | inl e => ∃ o, e = exn_of_oserror o
    | inr (_, files) => get_visio_files E (INPUT_DIR E) w' = (w', inr files)
    end.
Proof.
  intros H. unfold main_prepare in H.
  do 5 (makedirs_step E H).
  rewrite (bind_inr _ _ _ _ _ (logging_eq _ _ _)) in H. cbv beta in H.
  match type of H with bind _ _ ?w0 = _ =>
    destruct (check_dependencies E w0) as [w7 [e|deps]] eqn:Hcd end;
    destruct (check_dependencies_outcome E _ _ _ Hcd) as [[f1 Ht] He].
  { rewrite (bind_inl _ _ _ _ _ Hcd) in H. injection H as <- <-.
    right. eexists _, f1. split; [exact Ht|]. by apply He. }
  rewrite (bind_inr _ _ _ _ _ Hcd) in H. cbv beta in H.
  rewrite (bind_inr _ _ _ _ _ (logging_eq _ _ _)) in H. cbv beta in H.
  match type of H with bind _ _ ?w0 = _ =>
    destruct (get_visio_files E (INPUT_DIR E) w0) as [w9 [e|files]] eqn:Hg end;
    destruct (get_visio_files_outcome E _ _ _ _ Hg) as [-> He'].
  { rewrite (bind_inl _ _ _ _ _ Hg) in H. injection H as <- <-.
    right. eexists _, f1. split; [exact Ht|]. by apply He'. }
  rewrite (bind_inr _ _ _ _ _ Hg) in H. injection H as <- <-.
  right. eexists _, f1. split; [exact Ht|exact Hg].
Qed.





(** ** The summary *)

Lemma count_failed (results : list ConversionResult) :
  length results - count_successful results
  = length (filter (λ r, success r = false) results).
Proof.
  unfold count_successful. induction results as [|r rs IH]; [reflexivity|].
  rewrite !filter_cons. destruct (success r) eqn:Hs.
  - rewrite decide_True by reflexivity. rewrite decide_False by discriminate.
    simpl. exact IH.
  - rewrite decide_False by discriminate. rewrite decide_True by reflexivity.
    simpl. rewrite <-IH.
    pose proof (length_filter (λ r, success r = true) rs). lia.
Qed.

Lemma failed_lines_eq cs (results : list ConversionResult) :
  omap (λ r, if negb (success r) then Some (failed_line cs r) else None) results
  = failed_line cs <$> filter (λ r, success r = false) results.
Proof.
  induction results as [|r rs IH]; [reflexivity|].
  rewrite filter_cons. destruct (success r) eqn:Hs.
  - rewrite decide_False by discriminate. rewrite <-IH.
    simpl. rewrite Hs. reflexivity.
  - rewrite decide_True by reflexivity. rewrite fmap_cons, <-IH.
    simpl. rewrite Hs. reflexivity.
Qed.

(** X17.  The summary counts every result as either successful or failed,
    and it lists what it counts: after six lines of heading and counts, the
    section of failed conversions is printed exactly when some result has
    failed; it then holds one line for every failed result, in processing
    order, as many lines as the count of failed conversions says; and the
    closing divider comes last. *)
Theorem print_summary_lists_failures E cs (results : list ConversionResult) :
  let failures := filter (λ r, success r = false) results in
  length results - count_successful results = length failures ∧
  count_successful results + length failures = length results ∧
  ∃ head,
    length head = 6 ∧
    print_summary E cs results =
      head ++
      (if bool_decide (failures = []) then []
       else String "010" "Failed conversions:" :: (failed_line cs <$> failures)) ++
      [String "010" (repeat_char "=" 60 +:+ String "010" "")].
Proof.
  intros failures. pose proof (count_failed results) as Hc. fold failures in Hc.
  split; [exact Hc|]. split.
  { unfold count_successful in *.
    pose proof (length_filter (λ r, success r = true) results). lia. }
  unfold print_summary. cbv zeta. rewrite failed_lines_eq, Hc. fold failures.
  assert (bool_decide (0 < length failures) = negb (bool_decide (failures = []))) as ->.
  { destruct failures as [|x l]; [reflexivity|].
    rewrite bool_decide_eq_true_2 by (simpl; lia).
    rewrite bool_decide_eq_false_2 by discriminate. reflexivity. }
  destruct (bool_decide (failures = [])); destruct cs;
    eexists [_; _; _; _; _; _]; (split; reflexivity).
Qed.

(** ** The native backend, failing *)


